(** * Google Life Sciences executor plugin for Snakemake: a verification model

    A shallow embedding of
    [snakemake_executor_plugin_google_lifesciences/__init__.py]: the retry
    wrapper, the polling loop, the outcome classification, the machine-type
    catalog resolver, the resource planner and the source package cache,
    followed by the properties proved about them.

    Python objects mutated through [self] become an explicit state that is
    threaded through a small state-and-exception monad; a raised exception
    keeps the state reached so far, as in Python. *)

From Stdlib Require Import ZArith String Ascii List Bool Lia.
From stdpp Require Import base option list strings pretty gmap.

Set Default Proof Using "Type".

(** ** Python values *)

(** The exceptions the module raises or receives.  [KeyboardInterrupt] stands
    for the [BaseException]s that are not [Exception]s: an
    [except Exception] clause does not catch them. *)
Inductive pyexn : Type :=
| HttpError (status : Z) (content : string)
| BrokenPipeError
| KeyboardInterrupt
| AttributeError (attribute : string)
| UnboundLocalError (variable : string)
| TypeError (what : string)
| FileNotFoundError (path : string)
| KeyError (key : string)
| OverflowError (what : string)
| WorkflowError (msg : string)
| WorkflowErrorOf (ex : pyexn).

(** [isinstance(ex, Exception)] *)
Definition is_Exception (ex : pyexn) : bool :=
  match ex with
  | KeyboardInterrupt => false
  | _ => true
  end.

(** An attribute of [self] that [__init__] may not have assigned. *)
Inductive attr (A : Type) : Type :=
| Unset
| Assigned (a : A).
Arguments Unset {A}.
Arguments Assigned {A} a.

(** Truth value of an optional integer ([None] and [0] are falsy) and of an
    optional string ([None] and the empty string are falsy). *)
Definition truthyZ (o : option Z) : bool :=
  match o with
  | Some z => negb (z =? 0)%Z
  | None => false
  end.

Definition truthyS (o : option string) : bool :=
  match o with
  | Some s => negb (String.eqb s "")
  | None => false
  end.

(** [a or b] on optional integers. *)
Definition py_or (a b : option Z) : option Z :=
  if truthyZ a then a else b.

(** ** Strings *)

(** [s.startswith(p)] *)
Definition startswith (s p : string) : bool := String.prefix p s.

(** [sub in s] *)
Fixpoint contains (sub s : string) : bool :=
  String.prefix sub s ||
  match s with
  | EmptyString => false
  | String _ s' => contains sub s'
  end.

(** [s.replace(old, new)] for a non-empty [old]: [skip] counts the characters
    of a match that are still to be dropped. *)
Fixpoint replace_go (old new : string) (skip : nat) (s : string) : string :=
  match s with
  | EmptyString => EmptyString
  | String c s' =>
      match skip with
      | S k => replace_go old new k s'
      | O =>
          if String.prefix old s
          then new +:+ replace_go old new (String.length old - 1) s'
          else String c (replace_go old new 0 s')
      end
  end.

Definition replace (old new s : string) : string := replace_go old new 0 s.

(** [os.path.basename] and [os.path.join] of two components (POSIX). *)
Fixpoint basename_go (acc s : string) : string :=
  match s with
  | EmptyString => acc
  | String c s' =>
      if Ascii.eqb c "/" then basename_go EmptyString s'
      else basename_go (acc +:+ String c EmptyString) s'
  end.

Definition basename (p : string) : string := basename_go EmptyString p.

Fixpoint endswith_slash (s : string) : bool :=
  match s with
  | EmptyString => false
  | String c EmptyString => Ascii.eqb c "/"
  | String _ s' => endswith_slash s'
  end.

Definition path_join (a b : string) : string :=
  if startswith b "/" then b
  else if String.eqb a "" then b
  else if endswith_slash a then a +:+ b
  else a +:+ "/" +:+ b.

(** ** Insertion-ordered dictionaries

    A Python [dict] keeps its keys in insertion order, and the planner takes
    "the first key", so dictionaries keyed by strings are association lists
    whose keys are kept distinct by [dict_set]. *)
Abbreviation dict V := (list (string * V)).

Section Dict.
Context {V : Type}.

Fixpoint dict_get (k : string) (d : dict V) : option V :=
  match d with
  | [] => None
  | (k', v) :: d' => if String.eqb k k' then Some v else dict_get k d'
  end.

(** [d[k] = v]: an existing key keeps its position. *)
Fixpoint dict_set (k : string) (v : V) (d : dict V) : dict V :=
  match d with
  | [] => [(k, v)]
  | (k', v') :: d' =>
      if String.eqb k k' then (k, v) :: d' else (k', v') :: dict_set k v d'
  end.

(** [del d[k]] for a key that is present. *)
Fixpoint dict_del (k : string) (d : dict V) : dict V :=
  match d with
  | [] => []
  | (k', v') :: d' =>
      if String.eqb k k' then d' else (k', v') :: dict_del k d'
  end.

Definition dict_keys (d : dict V) : list string := d.*1.
End Dict.

(** ** The state-and-exception monad *)

Definition M (St A : Type) : Type := St -> (A + pyexn) * St.

Definition ret {St A} (a : A) : M St A := fun s => (inl a, s).

Definition raise {St A} (ex : pyexn) : M St A := fun s => (inr ex, s).

Definition bind {St A B} (m : M St A) (k : A -> M St B) : M St B :=
  fun s =>
    match m s with
    | (inl a, s') => k a s'
    | (inr ex, s') => (inr ex, s')
    end.

Definition modify {St} (f : St -> St) : M St unit := fun s => (inl tt, f s).

Definition gets {St A} (f : St -> A) : M St A := fun s => (inl (f s), s).

#[global] Instance M_ret {St} : MRet (M St) := @ret St.
#[global] Instance M_bind {St} : MBind (M St) := fun A B k m => bind m k.

(** Reading an attribute that an object may lack. *)
Definition attribute {St A} (name : string) (a : attr A) : M St A :=
  match a with
  | Assigned v => mret v
  | Unset => raise (AttributeError name)
  end.

(** [for x in xs: body x], stopping at the first exception. *)
Fixpoint for_each {St A} (xs : list A) (body : A -> M St unit) : M St unit :=
  match xs with
  | [] => ret tt
  | x :: xs' => body x ;; for_each xs' body
  end.

(** ** Jobs *)

(** [job.resources] with the keys the planner reads, and the rule names. *)
Record JobResources : Type := mkResources {
  _cores : option Z;
  mem_mb : option Z;
  disk_mb : option Z;
  nvidia_gpu : option Z;
  gpu : option Z;
  gpu_model : option string;
  machine_type : option string
}.

Record Job : Type := mkJobRequest {
  resources : JobResources;
  is_group : bool;
  (** [job.rule.name] of a single job *)
  rule_name : string;
  (** the names of [job.rules] of a group job *)
  rules : list string
}.

(** A job as the submission reads it: the resource request, [job.name],
    [job.jobid] and [job.needs_singularity]. *)
Record JobInfo : Type := mkJobInfo {
  request_of : Job;
  job_name : string;
  job_id : Z;
  needs_singularity : bool
}.

(** [SubmittedJobInfo], the object that [run_job] reports and that
    [check_active_jobs] and [cancel_jobs] receive.  The class declares the
    fields [job], [external_jobid] and [aux].  [jobname], [jobid] and
    [error_callback] are the other attributes that [check_active_jobs]
    reads: the class does not have them and nothing in the module sets
    them, so they are [Unset] on the objects that [run_job] builds. *)
Record SubmittedJobInfo : Type := mkSubmitted {
  sub_job : JobInfo;
  external_jobid : string;
  aux : dict string;
  jobname : attr string;
  jobid : attr string;
  error_callback : attr unit
}.

(** ** The process environment

    [calls] counts the [request.execute()] calls made so far, [sleeps] lists
    the arguments of [time.sleep] in order, [debug] the lines given to
    [logger.debug], and [reports] what the polling loop told the scheduler.
    A remote request is its outcome as a function of the number of calls the
    remote service has already served. *)

(** The [msg] argument of [report_job_error]. *)
Inductive errmsg : Type :=
| NoMsg
| StrOf (ex : pyexn).

Inductive report : Type :=
| ErrorCallback (j : SubmittedJobInfo)
| ReportJobError (j : SubmittedJobInfo) (msg : errmsg)
| ReportJobSuccess (j : SubmittedJobInfo)
| Yield (j : SubmittedJobInfo).

Record World : Type := mkWorld {
  calls : nat;
  sleeps : list Z;
  debug : list string;
  reports : list report
}.

Definition request (A : Type) : Type := nat -> A + pyexn.

Definition execute {A} (req : request A) : M World A :=
  fun w => (req (calls w),
            mkWorld (S (calls w)) (sleeps w) (debug w) (reports w)).

Definition time_sleep (t : Z) : M World unit :=
  modify (fun w => mkWorld (calls w) (sleeps w ++ [t]) (debug w) (reports w)).

Definition logger_debug (line : string) : M World unit :=
  modify (fun w => mkWorld (calls w) (sleeps w) (debug w ++ [line]) (reports w)).

Definition tell (r : report) : M World unit :=
  modify (fun w => mkWorld (calls w) (sleeps w) (debug w) (reports w ++ [r])).

(** ** [_retry_request]

    Every [Exception] is caught: while attempts remain the wrapper sleeps,
    doubles the timeout and calls itself; otherwise it raises
    [WorkflowError(ex)]. *)
Fixpoint retry_request_rec {A} (attempts : nat) (req : request A)
    (timeout : Z) : M World A :=
  fun w =>
    match execute req w with
    | (inl r, w') => (inl r, w')
    | (inr ex, w') =>
        if is_Exception ex then
          match attempts with
          | S attempts' =>
              (time_sleep timeout ;;
               retry_request_rec attempts' req (timeout * 2)%Z) w'
          | O => (inr (WorkflowErrorOf ex), w')
          end
        else (inr ex, w')
    end.

(** [attempts] is a Python integer tested with [attempts > 0]. *)
Definition _retry_request {A} (req : request A) (timeout attempts : Z)
  : M World A :=
  retry_request_rec (Z.to_nat attempts) req timeout.

(** The defaults of the signature: [timeout=2, attempts=3]. *)
Definition retry {A} (req : request A) : M World A := _retry_request req 2 3.

(** ** [_job_was_successful] *)

(** The [failed] and [unexpectedExitStatus] members of a lifecycle event. *)
Record FailedEvent : Type := mkFailed {
  code : string;
  cause : string
}.

Record UnexpectedExitStatusEvent : Type := mkExit {
  exitStatus : Z;
  stderr : option string
}.

Record Event : Type := mkEvent {
  ev_description : string;
  failed : option FailedEvent;
  unexpectedExitStatus : option UnexpectedExitStatusEvent
}.

(** The operation returned by [operations.get]: the [done] key may be
    missing, [metadata.events] is the ordered event list. *)
Record Status : Type := mkStatus {
  done : option bool;
  events : list Event
}.

(** The body of the loop over the events, for the current value of
    [success]. *)
Definition event_body (success : bool) (event : Event) : M World bool :=
  logger_debug (ev_description event) ;;
  match failed event with
  | Some action =>
      logger_debug (code action +:+ ": " +:+ cause action) ;;
      mret false
  | None =>
      match unexpectedExitStatus event with
      | Some action =>
          if (exitStatus action =? 0)%Z then mret success
          else
            match stderr action with
            | Some err =>
                logger_debug (ev_description event +:+ ": " +:+ err) ;;
                mret false
            | None => mret false
            end
      | None => mret success
      end
  end.

Fixpoint events_loop (success : bool) (evs : list Event) : M World bool :=
  match evs with
  | [] => mret success
  | event :: evs' =>
      success' ← event_body success event;
      events_loop success' evs'
  end.

Definition _job_was_successful (status : Status) : M World bool :=
  events_loop true (events status).

(** ** [check_active_jobs]

    [api_get name] is the request [operations.get(name=name)].  [status] is
    the local variable of the generator: unbound before the first successful
    query, and left as it was by an iteration that does not assign it.  The
    rate limiter only delays the queries and is left out; what the generator
    yields is recorded with the reports. *)
Section Polling.
Variable api_get : string -> request Status.

(** What follows the [try] statement for one job. *)
Definition after_query (j : SubmittedJobInfo) (status : option Status)
  : M World unit :=
  match status with
  | None => raise (UnboundLocalError "status")
  | Some st =>
      if bool_decide (default false (done st) = true) then
        ok ← _job_was_successful st;
        if ok : bool then tell (ReportJobSuccess j)
        else tell (ReportJobError j NoMsg)
      else tell (Yield j)
  end.

(** The [try] statement for one job and what follows it. *)
Definition query_job (j : SubmittedJobInfo) (status : option Status)
    (name : string) : M World (option Status) :=
  fun w0 =>
    match retry (api_get name) w0 with
    | (inl st, w1) =>
        (after_query j (Some st) ;; mret (Some st)) w1
    | (inr (HttpError st content), w1) =>
        if (st =? 404)%Z then
          (attribute "error_callback" (error_callback j) ;;
           tell (ErrorCallback j) ;; mret status) w1
        else if (st =? 500)%Z then
          (* [ex["content"]]: an HttpError is not subscriptable *)
          (inr (TypeError "'HttpError' object is not subscriptable"), w1)
        else (after_query j status ;; mret status) w1
    | (inr (WorkflowError msg), w1) =>
        (tell (ReportJobError j (StrOf (WorkflowError msg))) ;;
         mret status) w1
    | (inr (WorkflowErrorOf ex), w1) =>
        (tell (ReportJobError j (StrOf (WorkflowErrorOf ex))) ;;
         mret status) w1
    | (inr ex, w1) => (inr ex, w1)
    end.

(** One iteration; the result is the value of [status] it leaves.  The
    request is built from [j.jobname] and the debug line from [j.jobid]
    before the [try] statement. *)
Definition check_job (j : SubmittedJobInfo) (status : option Status)
  : M World (option Status) :=
  name ← attribute "jobname" (jobname j);
  id ← attribute "jobid" (jobid j);
  logger_debug ("Checking status for operation " +:+ id) ;;
  query_job j status name.

Fixpoint poll_loop (active_jobs : list SubmittedJobInfo)
    (status : option Status) : M World unit :=
  match active_jobs with
  | [] => mret tt
  | j :: rest =>
      status' ← check_job j status;
      poll_loop rest status'
  end.

Definition check_active_jobs (active_jobs : list SubmittedJobInfo)
  : M World unit :=
  poll_loop active_jobs None.
End Polling.

(** ** [get_available_machine_types] *)

Record MachineType : Type := mkMachineType {
  mt_name : string;
  guestCpus : Z;
  memoryMb : Z;
  mt_description : string;
  mt_zone : string
}.

Record Accelerator : Type := mkAccelerator {
  acc_name : string;
  maximumCardsPerInstance : Z
}.

(** The Compute Engine client: the [items] of each listing. *)
Record ComputeCli : Type := mkComputeCli {
  zones_list : request (list string);
  machineTypes_list : string -> request (list MachineType);
  acceleratorTypes_list : string -> request (list Accelerator)
}.

(** [re.search("^(r1|r2|...)", name)] for region names without regular
    expression operators; with no region the pattern is ["^()"], which
    matches every name. *)
Definition zone_in_regions (regions : list string) (name : string) : bool :=
  match regions with
  | [] => true
  | _ => existsb (startswith name) regions
  end.

(** The names of one zone after the two filters. *)
Definition zone_names (types : list MachineType) : list string :=
  let names := mt_name <$> types in
  let names := filter (fun name => negb (contains "micro" name)) names in
  filter (fun name =>
            negb (startswith name "e2" || startswith name "m1")) names.

(** [{mt["name"]: mt for mt in types}] *)
Definition by_name (types : list MachineType) : dict MachineType :=
  foldl (fun d mt => dict_set (mt_name mt) mt d) [] types.

(** The inner loop: the keys of [machine_types] that [names] lacks. *)
Definition mark_missing (machine_types : dict MachineType)
    (names : list string) (to_remove : gset string) : gset string :=
  foldl (fun acc machine_type =>
           if bool_decide (machine_type ∈ names) then acc
           else {[machine_type]} ∪ acc)
        to_remove (dict_keys machine_types).

Section Catalog.
Variable regions : list string.
Variable cli : ComputeCli.

Fixpoint fetch_zones (zones : list string)
    (lookup : dict (list MachineType)) : M World (dict (list MachineType)) :=
  match zones with
  | [] => mret lookup
  | zone :: zones' =>
      items ← retry (machineTypes_list cli zone);
      fetch_zones zones' (dict_set zone items lookup)
  end.

Definition get_available_machine_types : M World (dict MachineType) :=
  zones ← retry (zones_list cli);
  let zones := filter (fun z => zone_in_regions regions z) zones in
  lookup ← fetch_zones zones [];
  (* [zone] is the variable of the loop above *)
  match last zones with
  | None => raise (UnboundLocalError "zone")
  | Some zone =>
      match dict_get zone lookup with
      | None => raise (KeyError zone)
      | Some types =>
          let machine_types := by_name types in
          let lookup := dict_del zone lookup in
          let to_remove :=
            foldl (fun acc '(_, types) =>
                     mark_missing machine_types (zone_names types) acc)
                  (∅ : gset string) lookup in
          mret (foldr dict_del machine_types (elements to_remove))
      end
  end.
End Catalog.

(** ** The executor object

    The attributes of [self] that the functions below write, together with
    the local file system and the storage bucket they act on.  The settings
    that [__init__] fixes once are a separate, read-only record. *)
Record Executor : Type := mkExecutor {
  world : World;
  machine_type_prefix : attr (option string);
  _machine_type_prefix : attr (option string);
  (** [workflow.resource_settings.default_resources] *)
  default_resources : gmap string Z;
  _build_packages : gset string;
  pipeline_package : attr string;
  (** local files: path to bytes *)
  files : gmap string string;
  (** blobs of the bucket: name to bytes *)
  bucket : gmap string string;
  (** the blob names given to [upload_from_filename], in order *)
  uploads : list string;
  (** how many names [tempfile._get_candidate_names()] has produced *)
  candidates : nat
}.

Record Settings : Type := mkSettings {
  regions : list string;
  network : option string;
  subnetwork : option string;
  service_account_email : option string;
  (** [self.preemptible_rules]: [__init__] assigns [self.preemptible] and
      never this attribute, so it is [Unset] unless it is assigned from
      outside the module; an assigned value is given by its
      [is_preemptible] *)
  preemptible_rules : attr (string -> bool);
  workdir : string;
  aux_path : string;
  _save_storage_cache : bool;
  workflow_sources : list string
}.

Definition set_world (w : World) (e : Executor) : Executor :=
  mkExecutor w (machine_type_prefix e) (_machine_type_prefix e)
    (default_resources e) (_build_packages e) (pipeline_package e)
    (files e) (bucket e) (uploads e) (candidates e).

Definition set_machine_type_prefix (p : option string) (e : Executor)
  : Executor :=
  mkExecutor (world e) (Assigned p) (_machine_type_prefix e)
    (default_resources e) (_build_packages e) (pipeline_package e)
    (files e) (bucket e) (uploads e) (candidates e).

Definition set__machine_type_prefix (p : option string) (e : Executor)
  : Executor :=
  mkExecutor (world e) (machine_type_prefix e) (Assigned p)
    (default_resources e) (_build_packages e) (pipeline_package e)
    (files e) (bucket e) (uploads e) (candidates e).

Definition set_default_resources (r : gmap string Z) (e : Executor)
  : Executor :=
  mkExecutor (world e) (machine_type_prefix e) (_machine_type_prefix e)
    r (_build_packages e) (pipeline_package e)
    (files e) (bucket e) (uploads e) (candidates e).

(** A computation on the environment, run inside the executor. *)
Definition liftW {A} (m : M World A) : M Executor A :=
  fun e => let '(r, w) := m (world e) in (r, set_world w e).

(** Reading an attribute of [self]. *)
Definition getattr {A} (name : string) (f : Executor -> attr A)
  : M Executor A :=
  fun e =>
    match f e with
    | Assigned a => (inl a, e)
    | Unset => (inr (AttributeError name), e)
    end.

(** ** [_add_gpu] *)
Definition _add_gpu (gpu_count : option Z) : M Executor unit :=
  if negb (truthyZ gpu_count) || bool_decide (gpu_count = Some 0%Z)
  then mret tt
  else
    liftW (logger_debug
             ("found resource request for " +:+ pretty (default 0%Z gpu_count)
              +:+ " GPUs. This will limit to n1 instance types.")) ;;
    modify (fun e =>
              set_default_resources
                (<["nvidia_gpu" := default 0%Z gpu_count]>
                   (default_resources e)) e) ;;
    old ← getattr "_machine_type_prefix" _machine_type_prefix;
    (* [self._machine_type_prefix or ""] *)
    let cur := if truthyS old then default "" old else "" in
    modify (set__machine_type_prefix (Some cur)) ;;
    if negb (startswith cur "n1")
    then modify (set__machine_type_prefix (Some "n1"))
    else mret tt.

(** ** [_get_accelerator] *)

(** [s.endswith(suffix)] *)
Definition endswith (s suffix : string) : bool :=
  (String.length suffix <=? String.length s)%nat &&
  String.eqb
    (String.substring (String.length s - String.length suffix)
       (String.length suffix) s)
    suffix.

Definition accelerator_keepers (gpu_count : Z) (gpu_model : option string)
    (items : list Accelerator) : dict Accelerator :=
  foldl (fun keepers accelerator =>
           if (truthyS gpu_model &&
               negb (String.eqb (acc_name accelerator) (default "" gpu_model)))
              || endswith (acc_name accelerator) "vws"
           then keepers
           else if (gpu_count <=? maximumCardsPerInstance accelerator)%Z
           then dict_set (acc_name accelerator) accelerator keepers
           else keepers)
        [] items.

Definition smallest_accelerator (keepers : dict Accelerator)
  : option Accelerator :=
  match keepers with
  | [] => None
  | (first, a) :: _ =>
      let '(smallest, _) :=
        foldl (fun '(smallest, max_gpu) '(name, accelerator) =>
                 if (maximumCardsPerInstance accelerator <? max_gpu)%Z
                 then (name, maximumCardsPerInstance accelerator)
                 else (smallest, max_gpu))
              (first, maximumCardsPerInstance a) keepers in
      dict_get smallest keepers
  end.

Definition _get_accelerator (cli : ComputeCli) (gpu_count : option Z)
    (zone : string) (gpu_model : option string)
  : M World (option Accelerator) :=
  if negb (truthyZ gpu_count) || bool_decide (gpu_count = Some 0%Z)
  then mret None
  else
    accelerators ← retry (acceleratorTypes_list cli zone);
    let keepers :=
      accelerator_keepers (default 0%Z gpu_count) gpu_model accelerators in
    match smallest_accelerator keepers with
    | None =>
        if truthyS gpu_model then
          raise (WorkflowError
                   ("An accelerator in zone " +:+ zone +:+ " with model "
                    +:+ default "" gpu_model +:+ " cannot "
                    +:+ " be satisfied, so there are no options "
                    +:+ "available."))
        else
          raise (WorkflowError
                   ("An accelerator in zone " +:+ zone
                    +:+ " cannot be satisifed, so "
                    +:+ "there are no options available."))
    | Some a => mret (Some a)
    end.

(** ** [_generate_job_resources] *)

Record VirtualMachine : Type := mkVirtualMachine {
  machineType : string;
  labels : dict string;
  bootDiskSizeGb : Z;
  preemptible : bool;
  (** network, usePrivateAddress, subnetwork *)
  vm_network : option (string * bool * string);
  (** email, scopes *)
  service_account : option (string * list string);
  (** type, count *)
  accelerators : option (list (string * Z))
}.

Record ResourcePlan : Type := mkPlan {
  plan_regions : list string;
  virtualMachine : VirtualMachine
}.

(** First pass: drop what is too low in cpu or memory, and track the
    maxima for the error message. *)
Definition first_pass (cores mem : Z) (machine_types : dict MachineType)
  : dict MachineType * Z * Z :=
  foldl (fun '(keepers, max_cpu, max_mem) '(name, machine_type) =>
           let max_cpu := Z.max max_cpu (guestCpus machine_type) in
           let max_mem := Z.max max_mem (memoryMb machine_type) in
           if (guestCpus machine_type <? cores)%Z
              || (memoryMb machine_type <? mem)%Z
           then (keepers, max_cpu, max_mem)
           else (dict_set name machine_type keepers, max_cpu, max_mem))
        ([], 1%Z, 15360%Z) machine_types.

(** The filter on the machine type prefix. *)
Definition prefix_pass (prefix : string) (machine_types : dict MachineType)
  : dict MachineType :=
  foldl (fun keepers '(name, machine_type) =>
           if startswith name prefix
           then dict_set name machine_type keepers
           else keepers)
        [] machine_types.

(** One step of the search for the "smallest" machine type. *)
Definition smaller_step (best : string * Z * Z)
    (item : string * MachineType) : string * Z * Z :=
  let '(smallest, min_cores, min_mem) := best in
  let '(name, machine_type) := item in
  if (guestCpus machine_type <? min_cores)%Z
     && (memoryMb machine_type <? min_mem)%Z
  then (name, guestCpus machine_type, memoryMb machine_type)
  else (smallest, min_cores, min_mem).

Definition find_smallest (first : string * MachineType)
    (machine_types : dict MachineType) : string :=
  (foldl smaller_step
     (first.1, guestCpus first.2, memoryMb first.2) machine_types).1.1.

(** From the first pass to [selected = machine_types[smallest]]. *)
Definition select_machine_type (prefix : option string) (cores mem : Z)
    (machine_types : dict MachineType) : (string * MachineType) + pyexn :=
  let '(keepers, max_cpu, max_mem) := first_pass cores mem machine_types in
  let keepers :=
    if truthyS prefix then prefix_pass (default "" prefix) keepers
    else keepers in
  match keepers with
  | [] =>
      if truthyS prefix then
        inr (WorkflowError
               ("Machine prefix " +:+ default "" prefix
                +:+ " is too strict, or the resources cannot "
                +:+ " be satisfied, so there are no options "
                +:+ "available."))
      else
        inr (WorkflowError
               ("You requested " +:+ pretty mem +:+ " MB memory, "
                +:+ pretty cores +:+ " cores. "
                +:+ "The maximum available are " +:+ pretty max_mem
                +:+ " MB memory and "
                +:+ pretty max_cpu +:+ " cores. These resources cannot be satisfied. "
                +:+ "Please consider reducing the resource requirements of the "
                +:+ "corresponding rule."))
  | first :: _ =>
      let smallest := find_smallest first keepers in
      match dict_get smallest keepers with
      | Some selected => inl (smallest, selected)
      | None => inr (KeyError smallest)
      end
  end.

(** [repr] of a list of strings, for the debug line. *)
Definition repr_list (l : list string) : string :=
  "[" +:+ String.concat ", " ((fun s => "'" +:+ s +:+ "'") <$> l) +:+ "]".

Definition of_sum {St A} (r : A + pyexn) : M St A :=
  match r with
  | inl a => mret a
  | inr ex => raise ex
  end.

(** [math.ceil(disk_mb / 1024)].  The quotient of two Python integers is
    the double nearest to it, ties to even, and [OverflowError] when that
    is beyond the doubles.  As 1024 is a power of two, the quotient is the
    double nearest to [disk_mb], divided by 1024; [nearest_double a] is
    that double, which is an integer, and [math.ceil] of the quotient is
    exact. *)
Definition nearest_double (a : Z) : Z :=
  let bits := (Z.log2 (Z.abs a) + 1)%Z in
  if (bits <=? 53)%Z then a
  else
    let shift := (bits - 53)%Z in
    let q := Z.shiftr (Z.abs a) shift in
    let r := Z.land (Z.abs a) (Z.ones shift) in
    let half := Z.shiftl 1 (shift - 1) in
    let m := if (half <? r)%Z || ((r =? half)%Z && Z.odd q)
             then (q + 1)%Z else q in
    (Z.sgn a * Z.shiftl m shift)%Z.

(** The doubles end below [2^1024], so the quotient by 1024 overflows from
    [2^1034] on. *)
Definition double_limit : Z := (2 ^ 1034)%Z.

Definition ceil_div_1024 (a : Z) : Z + pyexn :=
  let x := nearest_double a in
  if (double_limit <=? Z.abs x)%Z
  then inr (OverflowError "integer division result too large for a float")
  else inl (- ((- x) / 1024))%Z.

Section Planner.
Variable settings : Settings.
Variable cli : ComputeCli.

Definition _generate_job_resources (job : Job) : M Executor ResourcePlan :=
  let cores := default 1%Z (_cores (resources job)) in
  mem ← match mem_mb (resources job) with
        | Some m => mret m
        | None =>
            raise (WorkflowError
                     ("No memory resource (mem, mem_mb) defined for job from "
                      +:+ "rule {job.rule.name}. Make sure to use --default-resources."))
        end;
  disk ← match disk_mb (resources job) with
         | Some d => mret d
         | None =>
             raise (WorkflowError
                      ("No disk resource (disk, disk_mb) defined for job from rule "
                       +:+ "{job.rule.name}. Make sure to use --default-resources."))
         end;
  disk_gb ← of_sum (ceil_div_1024 disk);
  let gpu_count := py_or (nvidia_gpu (resources job)) (gpu (resources job)) in
  let gpu_model := gpu_model (resources job) in
  let gpu_count :=
    if truthyS gpu_model && negb (truthyZ gpu_count) then Some 1%Z
    else gpu_count in
  modify (set_machine_type_prefix (machine_type (resources job))) ;;
  (if truthyZ gpu_count then _add_gpu gpu_count else mret tt) ;;
  machine_types ← liftW (get_available_machine_types (regions settings) cli);
  liftW (logger_debug
           ("found " +:+ pretty (length machine_types)
            +:+ " machine types across regions "
            +:+ repr_list (regions settings)
            +:+ " before filtering "
            +:+ "to increase selection, define fewer regions")) ;;
  prefix ← getattr "machine_type_prefix" machine_type_prefix;
  '(smallest, selected) ← of_sum (select_machine_type prefix cores mem machine_types);
  liftW (logger_debug
           ("Selected machine type " +:+ smallest +:+ ":"
            +:+ mt_description selected)) ;;
  preemptible ←
    (if is_group job then
       match rules job with
       | [] =>
           (* [all] of no rule: the attribute is not read *)
           mret true
       | _ :: _ =>
           is_preemptible ← attribute "preemptible_rules"
                              (preemptible_rules settings);
           let preemptible := forallb is_preemptible (rules job) in
           if negb preemptible && existsb is_preemptible (rules job)
           then
             raise (WorkflowError
                      ("All grouped rules should be homogenously set as preemptible rules"
                       +:+ "(see Defining groups for execution in snakemake documentation)"))
           else mret preemptible
       end
     else
       is_preemptible ← attribute "preemptible_rules"
                          (preemptible_rules settings);
       mret (is_preemptible (rule_name job)));
  let vm_network :=
    if truthyS (network settings) && truthyS (subnetwork settings)
    then Some (default "" (network settings), false,
               default "" (subnetwork settings))
    else None in
  let service_account :=
    if truthyS (service_account_email settings)
    then Some (default "" (service_account_email settings),
               ["https://www.googleapis.com/auth/cloud-platform"])
    else None in
  accelerators ←
    (if truthyZ gpu_count then
       accelerator ← liftW (_get_accelerator cli gpu_count
                              (mt_zone selected) gpu_model);
       match accelerator with
       | Some a => mret (Some [(acc_name a, default 0%Z gpu_count)])
       | None => raise (TypeError "'NoneType' object is not subscriptable")
       end
     else mret None);
  mret (mkPlan (regions settings)
          (mkVirtualMachine smallest [("app", "snakemake")]
             (disk_gb + 10)%Z preemptible vm_network service_account
             accelerators)).
End Planner.

(** ** The source package cache *)

Definition set_build_packages (p : gset string) (e : Executor) : Executor :=
  mkExecutor (world e) (machine_type_prefix e) (_machine_type_prefix e)
    (default_resources e) p (pipeline_package e)
    (files e) (bucket e) (uploads e) (candidates e).

Definition set_pipeline_package (p : string) (e : Executor) : Executor :=
  mkExecutor (world e) (machine_type_prefix e) (_machine_type_prefix e)
    (default_resources e) (_build_packages e) (Assigned p)
    (files e) (bucket e) (uploads e) (candidates e).

Definition set_files (f : gmap string string) (e : Executor) : Executor :=
  mkExecutor (world e) (machine_type_prefix e) (_machine_type_prefix e)
    (default_resources e) (_build_packages e) (pipeline_package e)
    f (bucket e) (uploads e) (candidates e).

Definition set_bucket (b : gmap string string) (e : Executor) : Executor :=
  mkExecutor (world e) (machine_type_prefix e) (_machine_type_prefix e)
    (default_resources e) (_build_packages e) (pipeline_package e)
    (files e) b (uploads e) (candidates e).

Definition set_uploads (u : list string) (e : Executor) : Executor :=
  mkExecutor (world e) (machine_type_prefix e) (_machine_type_prefix e)
    (default_resources e) (_build_packages e) (pipeline_package e)
    (files e) (bucket e) u (candidates e).

Definition set_candidates (n : nat) (e : Executor) : Executor :=
  mkExecutor (world e) (machine_type_prefix e) (_machine_type_prefix e)
    (default_resources e) (_build_packages e) (pipeline_package e)
    (files e) (bucket e) (uploads e) n.

(** What the operating system and the Python library provide: the resolved
    path of a file, the directory of temporary files, the sequence of
    temporary names, the bytes that [tarfile] writes for an archive opened
    under a given path with the given members (archive name and bytes of
    each), and the SHA-256 digest in hexadecimal. *)
Record Platform : Type := mkPlatform {
  realpath : string -> string;
  gettempdir : string;
  candidate_name : nat -> string;
  tar_gz : string -> list (string * string) -> string;
  sha256_hexdigest : string -> string
}.

Definition outside_workdir_message (workdir filename : string) : string :=
  "All source files must be present in the working directory, "
  +:+ workdir +:+ " to be uploaded to a build package that respects "
  +:+ "relative paths, but " +:+ filename +:+ " was found outside of this "
  +:+ "directory. Please set your working directory accordingly, "
  +:+ "and the path of your Snakefile to be relative to it.".

Section SourceCache.
Variable settings : Settings.
Variable os : Platform.

(** The first loop: every source must have the working directory in its
    resolved path. *)
Definition check_sources : M Executor unit :=
  for_each (workflow_sources settings) (fun filename =>
    if negb (contains (workdir settings) (realpath os filename))
    then raise (WorkflowError
                  (outside_workdir_message (workdir settings) filename))
    else mret tt).

(** The second loop: [tar.add(filename, arcname=arcname)]. *)
Fixpoint add_sources (sources : list string)
    (members : list (string * string))
  : M Executor (list (string * string)) :=
  match sources with
  | [] => mret members
  | filename :: sources' =>
      let arcname := replace (workdir settings +:+ "/") "" filename in
      content ← (fun e =>
                   match files e !! filename with
                   | Some bytes => (inl bytes, e)
                   | None => (inr (FileNotFoundError filename), e)
                   end);
      add_sources sources' (members ++ [(arcname, content)])
  end.

Definition _generate_build_source_package : M Executor string :=
  check_sources ;;
  n ← gets candidates;
  modify (set_candidates (S n)) ;;
  let tmpname := candidate_name os n in
  let targz :=
    path_join (gettempdir os) ("snakemake-" +:+ tmpname +:+ ".tar.gz") in
  (* [tarfile.open(targz, "w:gz")] creates the file *)
  modify (fun e => set_files (<[targz := ""]> (files e)) e) ;;
  members ← add_sources (workflow_sources settings) [];
  let bytes := tar_gz os targz members in
  modify (fun e => set_files (<[targz := bytes]> (files e)) e) ;;
  let sha256 := sha256_hexdigest os bytes in
  let hash_tar :=
    path_join (aux_path settings) ("workdir-" +:+ sha256 +:+ ".tar.gz") in
  modify (fun e =>
            match files e !! hash_tar with
            | None =>
                set_files (<[hash_tar := bytes]> (delete targz (files e))) e
            | Some _ => set_files (delete targz (files e)) e
            end) ;;
  modify (fun e => set_build_packages ({[hash_tar]} ∪ _build_packages e) e) ;;
  mret hash_tar.

(** The storage calls are taken to succeed, so the [retry.Retry]
    decorator runs the body once. *)
Definition _upload_build_source_package (targz : string) : M Executor unit :=
  let name := "source/cache/" +:+ basename targz in
  modify (set_pipeline_package name) ;;
  liftW (logger_debug ("build-package=" +:+ name)) ;;
  exists_ ← gets (fun e => bool_decide (is_Some (bucket e !! name)));
  if exists_ : bool then mret tt
  else
    fun e =>
      match files e !! targz with
      | Some bytes =>
          (inl tt,
           set_uploads (uploads e ++ [name])
             (set_bucket (<[name := bytes]> (bucket e)) e))
      | None => (inr (FileNotFoundError targz), e)
      end.

(** The last three lines of [__init__]. *)
Definition init_packages : M Executor unit :=
  modify (set_build_packages ∅) ;;
  targz ← _generate_build_source_package;
  _upload_build_source_package targz.

Definition delete_package (package : string) : M Executor unit :=
  exists_ ← gets (fun e => bool_decide (is_Some (bucket e !! package)));
  if exists_ : bool then
    liftW (logger_debug ("Deleting blob " +:+ package)) ;;
    modify (fun e => set_bucket (delete package (bucket e)) e)
  else mret tt.

Definition shutdown : M Executor unit :=
  if _save_storage_cache settings then
    liftW (logger_debug
             "Requested to save workflow sources, skipping cleanup.")
  else
    packages ← gets (fun e => elements (_build_packages e));
    for_each packages delete_package.
End SourceCache.


(** ** [_set_location]

    The listing of the locations is executed directly, not through
    [_retry_request]; its [locations] member is a list of pairs of a
    [locationId] and a [name], empty when the key is missing.  The model
    returns the value that the function assigns to [self.location]. *)

Definition newline : string := String (ascii_of_nat 10) EmptyString.

(** [r.split("-")[0]] *)
Fixpoint before_dash (s : string) : string :=
  match s with
  | EmptyString => EmptyString
  | String c s' =>
      if Ascii.eqb c "-" then EmptyString else String c (before_dash s')
  end.

(** [{x["locationId"]: x["name"] for x in listed}] *)
Definition locations_by_id (listed : list (string * string)) : dict string :=
  foldl (fun d x => dict_set x.1 x.2 d) [] listed.

(** The loop over the regions: the first region that is a location. *)
Fixpoint first_listed (regions : list string) (locations : dict string)
  : option string :=
  match regions with
  | [] => None
  | region :: regions' =>
      match dict_get region locations with
      | Some name => Some name
      | None => first_listed regions' locations
      end
  end.

Section Location.
Variable regions : list string.
Variable locations_list : request (list (string * string)).
(** [re.search("^(%s)" % "|".join(set(prefixes)), contender)], the search
    of the regular expression built from the prefixes, taken as given *)
Variable search_prefixes : list string -> string -> bool.

Definition _set_location (location : option string) : M World string :=
  listed ← execute locations_list;
  let locations := locations_by_id listed in
  logger_debug ("locations-available:" +:+ newline
                +:+ String.concat newline (dict_keys locations)) ;;
  match locations with
  | [] => raise (WorkflowError
                   "No locations found for Google Life Sciences API.")
  | _ :: _ =>
      if truthyS location then
        let location := default "" location in
        match dict_get location locations with
        | Some name => mret name
        | None =>
            match List.find (fun item => startswith item.1 location)
                    locations with
            | Some item => mret item.2
            | None =>
                raise (WorkflowError
                         ("Location or prefix requested " +:+ location
                          +:+ " is not available."))
            end
        end
      else
        match first_listed regions locations with
        | Some name => mret name
        | None =>
            let prefixes := before_dash <$> regions in
            match List.find (fun item => search_prefixes prefixes item.1)
                    locations with
            | Some item => mret item.2
            | None =>
                raise (WorkflowError
                         (" No locations available for regions!"
                          +:+ " Please specify a location with --google-lifesciences-location "
                          +:+ " or extend --google-lifesciences-regions to find a Life Sciences location."))
            end
        end
  end.
End Location.

(** ** Submission: [run_job] and the functions that build its request *)

(** What [__init__] fixes for the submission, the environment of the
    process, and [format_job_exec] of the base class. *)
Record Deployment : Type := mkDeployment {
  envvars : list string;
  environ : gmap string string;
  container_image : string;
  run_namespace : string;
  bucket_name : string;
  gs_logs : string;
  location : string;
  project : string;
  use_singularity : bool;
  format_job_exec : JobInfo -> string
}.

(** The executor with what the submission adds to it: the lines given to
    [logger.warning] and [logger.info], and the jobs given to
    [report_job_submission]. *)
Record Scheduler : Type := mkScheduler {
  executor : Executor;
  warnings : list string;
  infos : list string;
  submitted : list SubmittedJobInfo
}.

Definition liftE {A} (m : M Executor A) : M Scheduler A :=
  fun s =>
    let '(r, e) := m (executor s) in
    (r, mkScheduler e (warnings s) (infos s) (submitted s)).

Definition logger_warning (line : string) : M Scheduler unit :=
  modify (fun s => mkScheduler (executor s) (warnings s ++ [line]) (infos s)
                     (submitted s)).

Definition logger_info (line : string) : M Scheduler unit :=
  modify (fun s => mkScheduler (executor s) (warnings s) (infos s ++ [line])
                     (submitted s)).

Definition report_job_submission (job_info : SubmittedJobInfo) : M Scheduler unit :=
  modify (fun s => mkScheduler (executor s) (warnings s) (infos s)
                     (submitted s ++ [job_info])).

Record Action : Type := mkAction {
  containerName : string;
  imageUri : string;
  commands : list string;
  (** absent from the log action *)
  environment : option (dict string);
  action_labels : dict string;
  (** absent from the job action *)
  alwaysRun : option bool
}.

Record Pipeline : Type := mkPipeline {
  actions : list Action;
  pipeline_resources : ResourcePlan;
  pipeline_environment : dict string
}.

Record Body : Type := mkBody {
  pipeline : Pipeline;
  body_labels : dict string
}.

Definition helper_url : string :=
  "https://raw.githubusercontent.com/snakemake/snakemake-executor-plugin-google-lifesciences/main/snakemake_executor_plugin_google_lifesciences/google_lifesciences_helper.py".

Section Submission.
Variable settings : Settings.
Variable cli : ComputeCli.
Variable deployment : Deployment.
(** [pipelines.run(parent=..., body=...)]; the answer is [result["name"]] *)
Variable api_run : string -> Body -> request string.

Definition _get_jobname (job : JobInfo) : string :=
  "snakejob-" +:+ run_namespace deployment +:+ "-" +:+ job_name job
  +:+ "-" +:+ pretty (job_id job).

Definition _generate_pipeline_labels (job : JobInfo) : dict string :=
  [("name", _get_jobname job); ("app", "snakemake")].

Definition _generate_environment : M Scheduler (dict string) :=
  let envvars :=
    foldl (fun envvars key =>
             match environ deployment !! key with
             | Some value => dict_set key value envvars
             | None => envvars
             end)
          [] (envvars deployment) in
  match envvars with
  | [] => mret envvars
  | _ :: _ =>
      logger_warning "This API does not support environment secrets." ;;
      mret envvars
  end.

Definition _generate_log_action (job : JobInfo) : Action :=
  mkAction
    ("snakelog-" +:+ job_name job +:+ "-" +:+ pretty (job_id job))
    (container_image deployment)
    ["/bin/bash"; "-c";
     "wget -O /gls.py " +:+ helper_url
     +:+ " && chmod +x /gls.py && source activate snakemake || true && python /gls.py save "
     +:+ bucket_name deployment +:+ " /google/logs "
     +:+ gs_logs deployment +:+ "/" +:+ job_name job +:+ "/jobid_"
     +:+ pretty (job_id job)]
    None
    (_generate_pipeline_labels job)
    (Some true).

Definition _generate_job_action (job : JobInfo) : M Scheduler Action :=
  let exec_job := format_job_exec deployment job in
  package ← liftE (getattr "pipeline_package" pipeline_package);
  let commands :=
    ["/bin/bash"; "-c";
     "mkdir -p /workdir && "
     +:+ "cd /workdir && "
     +:+ "wget -O /download.py "
     +:+ helper_url +:+ " && "
     +:+ "chmod +x /download.py && "
     +:+ "source activate snakemake || true && "
     +:+ "python /download.py download " +:+ bucket_name deployment
     +:+ " " +:+ package +:+ " "
     +:+ "/tmp/workdir.tar.gz && "
     +:+ "tar -xzvf /tmp/workdir.tar.gz && " +:+ exec_job] in
  env ← _generate_environment;
  mret (mkAction
          ("snakejob-" +:+ job_name job +:+ "-" +:+ pretty (job_id job))
          (container_image deployment) commands (Some env)
          (_generate_pipeline_labels job) None).

Definition _generate_pipeline (job : JobInfo) : M Scheduler Pipeline :=
  resources ← liftE (_generate_job_resources settings cli (request_of job));
  action ← _generate_job_action job;
  let log_action := _generate_log_action job in
  env ← _generate_environment;
  mret (mkPipeline [action; log_action] resources env).

Definition run_job (job : JobInfo) : M Scheduler unit :=
  let labels := _generate_pipeline_labels job in
  pipeline ← _generate_pipeline job;
  let body := mkBody pipeline labels in
  if needs_singularity job && use_singularity deployment then
    raise (WorkflowError
             ("Singularity requires additional capabilities that "
              +:+ "aren't yet supported for standard Docker runs, and "
              +:+ "is not supported for the Google Life Sciences executor."))
  else
    name ← liftE (liftW (retry (api_run (location deployment) body)));
    let jobid := basename name in
    logger_info
      ("Get status with:" +:+ newline
       +:+ "gcloud config set project " +:+ project deployment +:+ newline
       +:+ "gcloud beta lifesciences operations describe "
       +:+ location deployment +:+ "/operations/" +:+ jobid +:+ newline
       +:+ "gcloud beta lifesciences operations list" +:+ newline
       +:+ "Logs will be saved to: " +:+ bucket_name deployment +:+ "/"
       +:+ gs_logs deployment +:+ newline) ;;
    report_job_submission
      (mkSubmitted job jobid [("external_jobname", name)]
         Unset Unset Unset).
End Submission.

(** ** [cancel_jobs]

    [api_cancel name] is the request [operations.cancel(name=name)].  The
    [except] clause names [BaseException], so nothing that the request
    raises leaves the loop. *)
Section Cancellation.
Variable api_cancel : string -> request unit.

(** [try: m except (Exception, BaseException, ...): continue] *)
Definition swallow {A} (m : M World A) : M World unit :=
  fun w => (inl tt, (m w).2).

Definition cancel_job (job : SubmittedJobInfo) : M World unit :=
  match dict_get "external_jobname" (aux job) with
  | None => raise (KeyError "external_jobname")
  | Some name =>
      logger_debug ("Cancelling operation " +:+ external_jobid job) ;;
      swallow (retry (api_cancel name))
  end.

Definition cancel_jobs (active_jobs : list SubmittedJobInfo) : M World unit :=
  for_each active_jobs cancel_job.
End Cancellation.

(** ** [get_snakefile]

    [None] stands for the failed assertion that the main Snakefile
    exists. *)

(** [s.removeprefix(p)] *)
Fixpoint drop_prefix (p s : string) : option string :=
  match p, s with
  | EmptyString, _ => Some s
  | String a p', String b s' =>
      if Ascii.eqb a b then drop_prefix p' s' else None
  | String _ _, EmptyString => None
  end.

Definition removeprefix (s p : string) : string :=
  default s (drop_prefix p s).

(** [s.strip("/")] *)
Fixpoint lstrip_slash (s : string) : string :=
  match s with
  | String c s' => if Ascii.eqb c "/" then lstrip_slash s' else s
  | EmptyString => EmptyString
  end.

Fixpoint rstrip_slash (s : string) : string :=
  match s with
  | EmptyString => EmptyString
  | String c s' =>
      match rstrip_slash s' with
      | EmptyString => if Ascii.eqb c "/" then EmptyString
                       else String c EmptyString
      | rest => String c rest
      end
  end.

Definition strip_slash (s : string) : string :=
  rstrip_slash (lstrip_slash s).

Definition get_snakefile (local : gmap string string)
    (main_snakefile workdir : string) : option string :=
  match local !! main_snakefile with
  | None => None
  | Some _ => Some (strip_slash (removeprefix main_snakefile workdir))
  end.

(** * Vocabulary of the statements *)

(** The sleeps of [n] retries that start from [timeout]. *)
Fixpoint backoff (n : nat) (timeout : Z) : list Z :=
  match n with
  | O => []
  | S n' => timeout :: backoff n' (timeout * 2)%Z
  end.

(** The environment after [n] executions and the sleeps between them. *)
Definition after_calls (n : nat) (slept : list Z) (w : World) : World :=
  mkWorld (calls w + n) (sleeps w ++ slept) (debug w) (reports w).


(** The outcomes of [req] at the [k] executions that start in [w] are all
    [Exception]s, of whatever class. *)
Definition fails_first {A} (req : request A) (w : World) (k : nat) : Prop :=
  forall i, i < k ->
    exists ex, req (calls w + i) = inr ex /\ is_Exception ex = true.

(** "The error propagates immediately": one execution, no sleep, and the
    error itself is what the caller receives. *)
Definition propagates_immediately {A} (req : request A) (ex : pyexn)
    (w : World) : Prop :=
  retry req w = (inr ex, after_calls 1 [] w).

(** "Reported as an error without retry": polling the single job [j] makes
    one status query, never sleeps, and tells the scheduler of an error. *)
Definition reported_without_retry (api_get : string -> request Status)
    (j : SubmittedJobInfo) (w : World) : Prop :=
  let w' := (check_active_jobs api_get [j] w).2 in
  calls w' = S (calls w) /\
  sleeps w' = sleeps w /\
  exists r, reports w' = reports w ++ [r] /\
            (r = ErrorCallback j \/ exists msg, r = ReportJobError j msg).

(** A request that is refused for lack of permission, a status query for an
    operation that has disappeared, and an operation that fails twice and
    then answers. *)
Definition forbidden : request string :=
  fun _ => inr (HttpError 403 "Forbidden").

Definition not_found_api : string -> request Status :=
  fun _ _ => inr (HttpError 404 "Not Found").

Definition flaky : request string :=
  fun n => match n with
           | 0 => inr BrokenPipeError
           | 1 => inr (HttpError 503 "Service Unavailable")
           | _ => inl "projects/p/locations/l/operations/42"
           end.


Definition fresh_world : World := mkWorld 0 [] [] [].

(** An event that leaves the verdict alone, and the debug lines that the
    loop prints for an event. *)
Definition event_ok (event : Event) : bool :=
  match failed event, unexpectedExitStatus event with
  | Some _, _ => false
  | None, Some action => (exitStatus action =? 0)%Z
  | None, None => true
  end.

Definition event_debug (event : Event) : list string :=
  ev_description event ::
  match failed event, unexpectedExitStatus event with
  | Some action, _ => [code action +:+ ": " +:+ cause action]
  | None, Some action =>
      match stderr action with
      | Some err =>
          if (exitStatus action =? 0)%Z then []
          else [ev_description event +:+ ": " +:+ err]
      | None => []
      end
  | None, None => []
  end.

Definition add_debug (lines : list string) (w : World) : World :=
  mkWorld (calls w) (sleeps w) (debug w ++ lines) (reports w).

(** A shape that meets a request, and a shape that is strictly smaller than
    another in both dimensions. *)
Definition adequate (cores mem : Z) (shape : MachineType) : Prop :=
  (cores <= guestCpus shape)%Z /\ (mem <= memoryMb shape)%Z.

Definition adequateb (cores mem : Z) (item : string * MachineType) : bool :=
  negb ((guestCpus item.2 <? cores)%Z || (memoryMb item.2 <? mem)%Z).

Definition smaller_in_both (a b : MachineType) : Prop :=
  (guestCpus a < guestCpus b)%Z /\ (memoryMb a < memoryMb b)%Z.

(** The catalog of the example: [A] with 2 cpus and 4096 MB, [B] with 4
    cpus and 8192 MB. *)
Definition shape_A : MachineType := mkMachineType "A" 2 4096 "" "".
Definition shape_B : MachineType := mkMachineType "B" 4 8192 "" "".
Definition catalog_AB : dict MachineType := [("A", shape_A); ("B", shape_B)].

(** A catalog in which the most cpus and the most memory belong to
    different shapes, served by a single zone, and a request for both. *)
Definition highcpu : MachineType :=
  mkMachineType "n1-highcpu-8" 8 7372 "8 vCPUs, 7.2 GB RAM" "us-central1-a".
Definition highmem : MachineType :=
  mkMachineType "n1-highmem-4" 4 26624 "4 vCPUs, 26 GB RAM" "us-central1-a".

Definition split_cli : ComputeCli :=
  mkComputeCli (fun _ => inl ["us-central1-a"])
    (fun _ _ => inl [highcpu; highmem])
    (fun _ _ => inl []).

(** The settings of the examples.  [preemptible_rules] has been assigned
    on them, with no rule preemptible, so that a plan can be returned;
    [initial_settings] are the same settings as [__init__] leaves them. *)
Definition plain_settings : Settings :=
  mkSettings ["us-central1"] None None None (Assigned (fun _ => false))
    "/home/user/workflow" "/home/user/workflow/.snakemake/auxiliary"
    false ["/home/user/workflow/Snakefile"].

Definition initial_settings : Settings :=
  mkSettings ["us-central1"] None None None Unset
    "/home/user/workflow" "/home/user/workflow/.snakemake/auxiliary"
    false ["/home/user/workflow/Snakefile"].

Definition split_job : Job :=
  mkJobRequest (mkResources (Some 8%Z) (Some 26624%Z) (Some 1000%Z)
                  None None None None)
    false "align" [].

Definition fresh_executor : Executor :=
  mkExecutor fresh_world Unset Unset ∅ ∅ Unset ∅ ∅ [] 0.

(** The number of GPUs that the planner settles on for a job. *)
Definition requested_gpus (job : Job) : option Z :=
  let gpu_count := py_or (nvidia_gpu (resources job)) (gpu (resources job)) in
  if truthyS (gpu_model (resources job)) && negb (truthyZ gpu_count)
  then Some 1%Z else gpu_count.


(** A zone with one GPU-capable shape and one accelerator, a job that asks
    for two GPUs, and an executor whose [_machine_type_prefix] is [None]. *)
Definition n1_standard_4 : MachineType :=
  mkMachineType "n1-standard-4" 4 15360 "4 vCPUs, 15 GB RAM" "us-central1-a".

Definition gpu_cli : ComputeCli :=
  mkComputeCli (fun _ => inl ["us-central1-a"])
    (fun _ _ => inl [n1_standard_4])
    (fun _ _ => inl [mkAccelerator "nvidia-tesla-t4" 4]).


Definition cpu_job : Job :=
  mkJobRequest (mkResources (Some 2%Z) (Some 8192%Z) (Some 1000%Z)
                  None None None None)
    false "align" [].

Definition ready_executor : Executor :=
  mkExecutor fresh_world Unset (Assigned None) ∅ ∅ Unset ∅ ∅ [] 0.

(** A path that lies under a directory. *)
Definition under (directory path : string) : bool :=
  String.eqb path directory || startswith path (directory +:+ "/").

(** The shapes served by the zones of the examples. *)
Definition f1_micro : MachineType :=
  mkMachineType "f1-micro" 1 614 "1 vCPU (shared physical core) and 0.6 GB RAM"
    "us-east1-b".
Definition e2_standard_2 : MachineType :=
  mkMachineType "e2-standard-2" 2 8192 "2 vCPUs, 8 GB RAM" "us-east1-b".
Definition m1_ultramem_40 : MachineType :=
  mkMachineType "m1-ultramem-40" 40 984064 "40 vCPUs, 961 GB RAM"
    "us-east1-b".
Definition n1_standard_1 : MachineType :=
  mkMachineType "n1-standard-1" 1 3840 "1 vCPU, 3.75 GB RAM" "us-east1-b".

Definition zone_shapes : list MachineType :=
  [f1_micro; e2_standard_2; m1_ultramem_40; n1_standard_1].

(** A project with one zone in the region, and one with two. *)
Definition one_zone_cli : ComputeCli :=
  mkComputeCli (fun _ => inl ["us-east1-b"; "europe-west1-b"])
    (fun _ _ => inl zone_shapes) (fun _ _ => inl []).

Definition two_zone_cli : ComputeCli :=
  mkComputeCli (fun _ => inl ["us-east1-b"; "us-east1-c"; "europe-west1-b"])
    (fun _ _ => inl zone_shapes) (fun _ _ => inl []).

(** Stand-ins for the platform.  The archive bytes list the members; the
    digest is a polynomial checksum printed in decimal. *)
Definition members_bytes (members : list (string * string)) : string :=
  String.concat ";" ((fun m => m.1 +:+ "=" +:+ m.2) <$> members).

Fixpoint checksum (acc : N) (bytes : string) : N :=
  match bytes with
  | EmptyString => acc
  | String c bytes' =>
      checksum ((acc * 31 + N_of_ascii c) mod 4294967296)%N bytes'
  end.

Definition digest (bytes : string) : string := pretty (checksum 7 bytes).

(** An archiver whose output depends on the members alone. *)
Definition plain_platform : Platform :=
  mkPlatform (fun path => path) "/tmp" (fun n => "tmp" +:+ pretty n)
    (fun _ members => members_bytes members) digest.

(** An archiver that, like [gzip], starts the archive with the base name
    under which it was opened, less the [.gz] suffix. *)
Definition strip_gz (s : string) : string :=
  if endswith s ".gz" then String.substring 0 (String.length s - 3) s else s.

Definition gzip_platform : Platform :=
  mkPlatform (fun path => path) "/tmp" (fun n => "tmp" +:+ pretty n)
    (fun targz members =>
       strip_gz (basename targz) +:+ "|" +:+ members_bytes members)
    digest.

(** A working tree with a Snakefile, and a start-up of the executor in it. *)
Definition snakefile_bytes : string := "rule all: input: 'out.txt'".

Definition started_executor : Executor :=
  mkExecutor fresh_world Unset Unset ∅ ∅ Unset
    {[ "/home/user/workflow/Snakefile" := snakefile_bytes ]} ∅ [] 0.

(** The same settings with a source file in a sibling directory whose name
    starts like the working directory. *)
Definition sibling_settings : Settings :=
  mkSettings ["us-central1"] None None None (Assigned (fun _ => false))
    "/home/user/workflow" "/home/user/workflow/.snakemake/auxiliary"
    false ["/home/user/workflow-old/Snakefile"].

Definition sibling_executor : Executor :=
  mkExecutor fresh_world Unset Unset ∅ ∅ Unset
    {[ "/home/user/workflow-old/Snakefile" := snakefile_bytes ]} ∅ [] 0.

(** A shape name that the resolver means to leave out. *)
Definition discouraged (name : string) : bool :=
  contains "micro" name || startswith name "e2" || startswith name "m1".

(** A remote service that answers every listing at once, and always in
    the same way. *)
Definition serves (cli : ComputeCli) (all_zones : list string)
    (shapes : string -> list MachineType) : Prop :=
  (forall n, zones_list cli n = inl all_zones) /\
  (forall zone n, machineTypes_list cli zone n = inl (shapes zone)).

(** The invariant of the search for the smallest shape: the incumbent is one
    of the shapes seen, and none of them is smaller in both dimensions. *)
Definition incumbent_of (best : string * Z * Z)
    (seen : dict MachineType) : Prop :=
  exists shape,
    (best.1.1, shape) ∈ seen /\
    best.1.2 = guestCpus shape /\ best.2 = memoryMb shape /\
    forall name' shape', (name', shape') ∈ seen ->
                         ~ smaller_in_both shape' shape.

(** The settings of the examples with the source cache retained, and the
    executor after a start-up in the working tree. *)
Definition retaining_settings : Settings :=
  mkSettings ["us-central1"] None None None (Assigned (fun _ => false))
    "/home/user/workflow" "/home/user/workflow/.snakemake/auxiliary"
    true ["/home/user/workflow/Snakefile"].

Definition packaged_executor : Executor :=
  (init_packages plain_settings plain_platform started_executor).2.

Definition package_path : string :=
  "/home/user/workflow/.snakemake/auxiliary/workdir-1832109017.tar.gz".

Definition package_blob : string := "source/cache/workdir-1832109017.tar.gz".

(** The settings of the examples with a source file elsewhere. *)
Definition outside_settings : Settings :=
  mkSettings ["us-central1"] None None None (Assigned (fun _ => false))
    "/home/user/workflow" "/home/user/workflow/.snakemake/auxiliary"
    false ["/home/user/workflow/Snakefile"; "/etc/hosts"].

(** ** Vocabulary of the further properties *)


(** The total of a list of sleeps. *)
Definition total_sleep (slept : list Z) : Z := foldr Z.add 0%Z slept.

(** A report that concerns the job [j] and comes from the classification
    of its status or from [report_job_error]. *)
Definition report_about (j : SubmittedJobInfo) (r : report) : Prop :=
  r = ReportJobSuccess j \/ (exists msg, r = ReportJobError j msg) \/
  r = Yield j.

(** The verdict on an answered status query. *)
Definition verdict (j : SubmittedJobInfo) (st : Status) : report :=
  if bool_decide (done st = Some true) then
    if forallb event_ok (events st) then ReportJobSuccess j
    else ReportJobError j NoMsg
  else Yield j.

(** An accelerator that qualifies for a request of [count] GPUs of an
    optional model. *)
Definition qualifies (count : Z) (model : option string) (a : Accelerator)
  : bool :=
  negb ((truthyS model && negb (String.eqb (acc_name a) (default "" model)))
        || endswith (acc_name a) "vws")
  && (count <=? maximumCardsPerInstance a)%Z.

(** A status query answered with an operation that is still running. *)
Definition running_status : Status := mkStatus None [].

Definition running_api : string -> request Status :=
  fun _ _ => inl running_status.

(** Settings in which the rule [a] alone is preemptible, and a group job
    made of the rules [a] and [b]. *)
Definition mixed_settings : Settings :=
  mkSettings ["us-central1"] None None None
    (Assigned (fun r => String.eqb r "a"))
    "/home/user/workflow" "/home/user/workflow/.snakemake/auxiliary"
    false ["/home/user/workflow/Snakefile"].

Definition group_job : Job :=
  mkJobRequest (mkResources (Some 2%Z) (Some 8192%Z) (Some 1000%Z)
                  None None None None)
    true "" ["a"; "b"].

(** The invariant of the search for the smallest accelerator. *)
Definition least_of (best : string * Z) (seen : dict Accelerator) : Prop :=
  exists a,
    (best.1, a) ∈ seen /\ best.2 = maximumCardsPerInstance a /\
    forall name' b, (name', b) ∈ seen ->
      (maximumCardsPerInstance a <= maximumCardsPerInstance b)%Z.

(** The accelerators of a zone in the examples. *)
Definition t4 : Accelerator := mkAccelerator "nvidia-tesla-t4" 4.
Definition p100 : Accelerator := mkAccelerator "nvidia-tesla-p100" 2.
Definition t4_vws : Accelerator := mkAccelerator "nvidia-tesla-t4-vws" 1.

Definition accelerator_cli : ComputeCli :=
  mkComputeCli (fun _ => inl ["us-central1-a"])
    (fun _ _ => inl [n1_standard_4])
    (fun _ _ => inl [t4; t4_vws; p100]).

(** A submitted job whose auxiliary data holds the name of its operation,
    and the debug line that its cancellation prints. *)
Definition cancellable (j : SubmittedJobInfo) : Prop :=
  is_Some (dict_get "external_jobname" (aux j)).

Definition cancel_line (j : SubmittedJobInfo) : string :=
  "Cancelling operation " +:+ external_jobid j.

(** What [run_job] reports for a job whose operation got the name [name]. *)
Definition submission_of (job : JobInfo) (name : string) : SubmittedJobInfo :=
  mkSubmitted job (basename name) [("external_jobname", name)]
    Unset Unset Unset.

Definition singularity_refusal : pyexn :=
  WorkflowError
    ("Singularity requires additional capabilities that "
     +:+ "aren't yet supported for standard Docker runs, and "
     +:+ "is not supported for the Google Life Sciences executor.").

Definition secrets_warning : string :=
  "This API does not support environment secrets.".

(** A deployment with Singularity enabled, in which one of the two
    requested environment variables is set, and a job that needs
    Singularity. *)
Definition example_deployment : Deployment :=
  mkDeployment ["HOME"; "TOKEN"] {[ "TOKEN" := "s3cret" ]}
    "snakemake/snakemake" "ns" "bucket" "logs"
    "projects/p/locations/us-central1" "p" true
    (fun _ => "snakemake --snakefile Snakefile").

Definition example_job : JobInfo := mkJobInfo cpu_job "align" 7 true.

Definition fresh_scheduler : Scheduler := mkScheduler ready_executor [] [] [].

Definition accepting_api : string -> Body -> request string :=
  fun _ _ _ => inl "projects/p/locations/us-central1/operations/123".

Definition failing_cancel : string -> request unit :=
  fun _ _ => inr (HttpError 503 "Service Unavailable").

(** A scheduler whose executor holds the name of the source package. *)
Definition submitting_scheduler : Scheduler :=
  mkScheduler
    (set_pipeline_package "source/cache/snakeworkdir-5d41402a.tar.gz"
       ready_executor)
    [] [] [].

(** The job of the examples as [run_job] reports it, and the same object
    after [jobname] and [jobid] have been set on it from outside. *)
Definition submitted_job : SubmittedJobInfo :=
  submission_of example_job "projects/p/locations/l/operations/42".

Definition lost_job : SubmittedJobInfo :=
  mkSubmitted example_job "42"
    [("external_jobname", "projects/p/locations/l/operations/42")]
    (Assigned "projects/p/locations/l/operations/42") (Assigned "42") Unset.

(** A submitted job on which [jobname] and [jobid] can be read. *)
Definition pollable (j : SubmittedJobInfo) : Prop :=
  exists name id, jobname j = Assigned name /\ jobid j = Assigned id.




(** The members of the archive of the sources: each source under its name
    relative to the working directory, with the bytes of the file. *)
Definition archive_members (settings : Settings)
    (local : gmap string string) : list (string * string) :=
  (fun filename =>
     (replace (workdir settings +:+ "/") "" filename,
      default "" (local !! filename)))
  <$> workflow_sources settings.
(** * Properties *)

(** ** The string functions on examples *)

Example contains_micro : contains "micro" "f1-micro" = true.
Proof. reflexivity. Qed.

Example contains_not_micro : contains "micro" "n1-standard-1" = false.
Proof. reflexivity. Qed.

Example replace_every_occurrence : replace "/w/" "" "/w/a/w/b" = "ab".
Proof. reflexivity. Qed.

Example basename_of_archive :
  basename "/tmp/snakemake-tmp0.tar.gz" = "snakemake-tmp0.tar.gz".
Proof. reflexivity. Qed.

Example path_join_relative : path_join "/a/b" "c.tar.gz" = "/a/b/c.tar.gz".
Proof. reflexivity. Qed.

Example endswith_vws :
  endswith "nvidia-tesla-t4-vws" "vws" = true /\
  endswith "nvidia-tesla-t4" "vws" = false.
Proof. split; reflexivity. Qed.

Example zone_in_regions_prefix :
  zone_in_regions ["us-east1"; "us-west1"] "us-west1-b" = true /\
  zone_in_regions ["us-east1"; "us-west1"] "europe-west1-b" = false.
Proof. split; reflexivity. Qed.

(** ** The retry wrapper *)

Lemma after_calls_0 w : after_calls 0 [] w = w.
Proof.
  destruct w as [c s d r]. unfold after_calls; simpl.
  by rewrite Nat.add_0_r, app_nil_r.
Qed.

Lemma retry_rec_exhausted {A} (req : request A) n :
  forall timeout w,
    (forall i, i <= n ->
       exists ex, req (calls w + i) = inr ex /\ is_Exception ex = true) ->
    exists ex,
      req (calls w + n) = inr ex /\
      retry_request_rec n req timeout w =
        (inr (WorkflowErrorOf ex), after_calls (S n) (backoff n timeout) w).
Proof.
  induction n as [|n IH]; intros timeout w Hfail.
  - destruct (Hfail 0 (le_n 0)) as (ex & Hreq & Hex).
    exists ex. split; [done|].
    rewrite Nat.add_0_r in Hreq. simpl. unfold execute. rewrite Hreq, Hex.
    unfold after_calls; simpl. by rewrite app_nil_r, Nat.add_1_r.
  - destruct (Hfail 0 (Nat.le_0_l _)) as (ex0 & Hreq0 & Hex0).
    rewrite Nat.add_0_r in Hreq0.
    set (w1 := mkWorld (S (calls w)) (sleeps w ++ [timeout]) (debug w)
                 (reports w)).
    destruct (IH (timeout * 2)%Z w1) as (ex & Hreq & Hrun).
    { intros i Hi. destruct (Hfail (S i)) as (ex & Hreq & Hex); [lia|].
      exists ex. split; [|done]. simpl. by rewrite <- Nat.add_succ_r. }
    exists ex. split.
    { simpl in Hreq. by rewrite Nat.add_succ_r. }
    cbn [retry_request_rec]. unfold execute at 1. rewrite Hreq0, Hex0.
    change ((time_sleep timeout ;; retry_request_rec n req (timeout * 2)%Z)
              (mkWorld (S (calls w)) (sleeps w) (debug w) (reports w)))
      with (retry_request_rec n req (timeout * 2)%Z w1).
    rewrite Hrun. f_equal. unfold after_calls, w1; simpl.
    f_equal; [lia|]. by rewrite <- app_assoc.
Qed.

Lemma retry_rec_recovers {A} (req : request A) k :
  forall n timeout w r,
    k <= n ->
    (forall i, i < k ->
       exists ex, req (calls w + i) = inr ex /\ is_Exception ex = true) ->
    req (calls w + k) = inl r ->
    retry_request_rec n req timeout w =
      (inl r, after_calls (S k) (backoff k timeout) w).
Proof.
  induction k as [|k IH]; intros n timeout w r Hle Hfail Hok.
  - rewrite Nat.add_0_r in Hok.
    destruct n; simpl; unfold execute; rewrite Hok;
      unfold after_calls; simpl; by rewrite app_nil_r, Nat.add_1_r.
  - destruct n as [|n]; [lia|].
    destruct (Hfail 0) as (ex0 & Hreq0 & Hex0); [lia|].
    rewrite Nat.add_0_r in Hreq0.
    set (w1 := mkWorld (S (calls w)) (sleeps w ++ [timeout]) (debug w)
                 (reports w)).
    cbn [retry_request_rec]. unfold execute at 1. rewrite Hreq0, Hex0.
    change ((time_sleep timeout ;; retry_request_rec n req (timeout * 2)%Z)
              (mkWorld (S (calls w)) (sleeps w) (debug w) (reports w)))
      with (retry_request_rec n req (timeout * 2)%Z w1).
    rewrite (IH n (timeout * 2)%Z w1 r); [|lia| |].
    + f_equal. unfold after_calls, w1; simpl.
      f_equal; [lia|]. by rewrite <- app_assoc.
    + intros i Hi. destruct (Hfail (S i)) as (ex & Hreq & Hex); [lia|].
      exists ex. split; [|done]. simpl. by rewrite <- Nat.add_succ_r.
    + simpl. by rewrite <- Nat.add_succ_r.
Qed.

(** Whatever the wrapper raises is a [WorkflowError] around the cause, or an
    exception that [except Exception] does not catch: an [HttpError] never
    leaves it. *)
Lemma retry_rec_raises {A} (req : request A) n :
  forall timeout w ex w',
    retry_request_rec n req timeout w = (inr ex, w') ->
    (exists cause, ex = WorkflowErrorOf cause) \/ is_Exception ex = false.
Proof.
  induction n as [|n IH]; intros timeout w ex w' Hrun; simpl in Hrun;
    unfold execute in Hrun;
    destruct (req (calls w)) as [r|ex0] eqn:Hreq; try discriminate;
    destruct (is_Exception ex0) eqn:Hex0.
  - left. exists ex0. congruence.
  - right. congruence.
  - eapply IH. exact Hrun.
  - right. congruence.
Qed.

(** C4 (amended): after [k <= attempts] executions that raised an
    [Exception] of any class (the wrapper has no retryability predicate),
    each followed by a sleep of [timeout], [2*timeout], ..., the next
    outcome decides: a result is returned, and, once the attempts are used
    up, one more [Exception] is raised as [WorkflowError] around it.  No
    [Exception] leaves the wrapper before the attempts are used up. *)
Theorem retry_request_retries_every_exception {A} (req : request A)
    (timeout attempts : Z) (w : World) (k : nat) :
  k <= Z.to_nat attempts ->
  fails_first req w k ->
  (forall r, req (calls w + k) = inl r ->
     _retry_request req timeout attempts w =
       (inl r, after_calls (S k) (backoff k timeout) w)) /\
  (forall ex, k = Z.to_nat attempts ->
     req (calls w + k) = inr ex -> is_Exception ex = true ->
     _retry_request req timeout attempts w =
       (inr (WorkflowErrorOf ex), after_calls (S k) (backoff k timeout) w)).
Proof.
  intros Hk Hfail. split.
  - intros r Hok. unfold _retry_request.
    by apply retry_rec_recovers.
  - intros ex -> Hreq Hex. unfold _retry_request.
    destruct (retry_rec_exhausted req (Z.to_nat attempts) timeout w)
      as (ex' & Hreq' & Hrun).
    { intros i Hi. destruct (decide (i = Z.to_nat attempts)) as [->|Hne].
      - eauto.
      - apply Hfail. lia. }
    rewrite Hrun. congruence.
Qed.

Lemma retry_request_retries_every_exception_witness :
  retry flaky fresh_world =
    (inl "projects/p/locations/l/operations/42",
     mkWorld 3 [2; 4]%Z [] []).
Proof.
  refine (proj1 (retry_request_retries_every_exception
                   flaky 2 3 fresh_world 2 _ _) _ _).
  - vm_compute. lia.
  - intros [|[|i]] Hi; [eexists; split; reflexivity ..|lia].
  - reflexivity.
Defined.

(** C4 (as stated) fails: a request refused with 403 is executed four
    times with sleeps of 2, 4 and 8 seconds, and the caller receives a
    [WorkflowError], not the 403. *)
Lemma retry_request_forbidden_is_retried :
  retry forbidden fresh_world =
    (inr (WorkflowErrorOf (HttpError 403 "Forbidden")),
     mkWorld 4 [2; 4; 8]%Z [] []) /\
  ~ propagates_immediately forbidden (HttpError 403 "Forbidden") fresh_world.
Proof.
  split; [reflexivity|].
  unfold propagates_immediately. vm_compute. discriminate.
Qed.

(** ** The polling loop *)

(** X1: the retry wrapper never raises an [HttpError], so that the
    [except googleapiclient.errors.HttpError] clause of the polling loop is
    never entered. *)
Lemma retry_never_raises_HttpError {A} (req : request A) w st content w' :
  retry req w <> (inr (HttpError st content), w').
Proof.
  intros Hrun. apply retry_rec_raises in Hrun as [[cause Hc]|Hb]; done.
Qed.

(** What one iteration does before the [try] statement: it reads
    [j.jobname], then [j.jobid], and raises [AttributeError] for the first
    that the object lacks; otherwise it prints the debug line. *)
Lemma check_job_unreadable api_get j status w :
  ~ pollable j ->
  exists a, check_job api_get j status w = (inr (AttributeError a), w).
Proof.
  intros Hno. unfold check_job, attribute.
  destruct (jobname j) as [|name] eqn:Hname; [eexists; reflexivity|].
  destruct (jobid j) as [|id] eqn:Hid; [eexists; reflexivity|].
  destruct Hno. by exists name, id.
Qed.

Lemma check_job_readable api_get j status name id w :
  jobname j = Assigned name ->
  jobid j = Assigned id ->
  check_job api_get j status w
  = query_job api_get j status name
      (add_debug ["Checking status for operation " +:+ id] w).
Proof. intros Hname Hid. unfold check_job. by rewrite Hname, Hid. Qed.

Lemma query_job_not_found api_get j status name w content :
  (forall i, i <= 3 ->
     api_get name (calls w + i) = inr (HttpError 404 content)) ->
  query_job api_get j status name w
  = (inl status,
     mkWorld (calls w + 4) (sleeps w ++ [2; 4; 8]%Z) (debug w)
       (reports w ++
          [ReportJobError j
             (StrOf (WorkflowErrorOf (HttpError 404 content)))])).
Proof.
  intros H404.
  destruct (retry_rec_exhausted (api_get name) 3 2%Z w)
    as (ex & Hreq & Hrun).
  { intros i Hi. eexists. split; [apply H404; done|done]. }
  rewrite (H404 3) in Hreq by lia. injection Hreq as <-.
  unfold query_job, retry, _retry_request. change (Z.to_nat 3) with 3.
  rewrite Hrun. reflexivity.
Qed.

(** C3: when the status queries answer 404, no job is reported as an
    error at once.  A job as [run_job] reports it has no [jobname]: the
    loop raises [AttributeError] before any query, reports nothing and
    polls no further job.  A job on which [jobname] and [jobid] have been
    set has its query executed four times by the retry wrapper, with sleeps
    of 2, 4 and 8 seconds, before it is reported with [report_job_error]:
    the clause for the 404 of [HttpError] is never entered. *)
Theorem poll_not_found_never_reported_at_once
    (api_get : string -> request Status) (j : SubmittedJobInfo)
    (rest : list SubmittedJobInfo) (w : World) (content : string) :
  (forall name i, i <= 3 ->
     api_get name (calls w + i) = inr (HttpError 404 content)) ->
  ~ reported_without_retry api_get j w /\
  (jobname j = Unset ->
   check_active_jobs api_get (j :: rest) w
   = (inr (AttributeError "jobname"), w)) /\
  (forall name id,
     jobname j = Assigned name -> jobid j = Assigned id ->
     check_active_jobs api_get (j :: rest) w
     = poll_loop api_get rest None
         (mkWorld (calls w + 4) (sleeps w ++ [2; 4; 8]%Z)
            (debug w ++ ["Checking status for operation " +:+ id])
            (reports w ++
               [ReportJobError j
                  (StrOf (WorkflowErrorOf (HttpError 404 content)))]))).
Proof.
  intros H404.
  assert (Hset : forall others name id,
            jobname j = Assigned name -> jobid j = Assigned id ->
            check_active_jobs api_get (j :: others) w
            = poll_loop api_get others None
                (mkWorld (calls w + 4) (sleeps w ++ [2; 4; 8]%Z)
                   (debug w ++ ["Checking status for operation " +:+ id])
                   (reports w ++
                      [ReportJobError j
                         (StrOf (WorkflowErrorOf (HttpError 404 content)))]))).
  { intros others name id Hname Hid.
    unfold check_active_jobs. cbn [poll_loop]. cbv [mbind M_bind bind].
    rewrite (check_job_readable _ _ _ name id) by done.
    rewrite (query_job_not_found _ _ _ _ _ content); [done|].
    intros i Hi. by apply H404. }
  split; [|split].
  - unfold reported_without_retry. intros (Hcalls & _). revert Hcalls.
    destruct (jobname j) as [|name] eqn:Hname.
    { unfold check_active_jobs. cbn [poll_loop]. cbv [mbind M_bind bind].
      unfold check_job, attribute. rewrite Hname. simpl. lia. }
    destruct (jobid j) as [|id] eqn:Hid.
    { unfold check_active_jobs. cbn [poll_loop]. cbv [mbind M_bind bind].
      unfold check_job, attribute. rewrite Hname, Hid. simpl. lia. }
    rewrite (Hset [] name id) by done. simpl. lia.
  - intros Hname. unfold check_active_jobs. cbn [poll_loop].
    cbv [mbind M_bind bind]. unfold check_job, attribute. by rewrite Hname.
  - intros name id. apply Hset.
Qed.

Lemma poll_not_found_never_reported_at_once_witness :
  ~ reported_without_retry not_found_api submitted_job fresh_world /\
  check_active_jobs not_found_api [submitted_job] fresh_world
  = (inr (AttributeError "jobname"), fresh_world) /\
  check_active_jobs not_found_api [lost_job] fresh_world
  = (inl (),
     mkWorld 4 [2; 4; 8]%Z ["Checking status for operation 42"]
       [ReportJobError lost_job
          (StrOf (WorkflowErrorOf (HttpError 404 "Not Found")))]).
Proof.
  assert (H404 : forall name i, i <= 3 ->
            not_found_api name (calls fresh_world + i)
            = inr (HttpError 404 "Not Found")) by reflexivity.
  split; [|split].
  - exact (proj1 (poll_not_found_never_reported_at_once not_found_api
                    submitted_job [] fresh_world "Not Found" H404)).
  - apply (poll_not_found_never_reported_at_once not_found_api
             submitted_job [] fresh_world "Not Found" H404).
    reflexivity.
  - exact (proj2 (proj2 (poll_not_found_never_reported_at_once not_found_api
                           lost_job [] fresh_world "Not Found" H404))
             _ "42" eq_refl eq_refl).
Defined.

(** ** Outcome classification *)

Lemma add_debug_nil w : add_debug [] w = w.
Proof. destruct w. unfold add_debug; simpl. by rewrite app_nil_r. Qed.

Lemma add_debug_app l1 l2 w :
  add_debug l2 (add_debug l1 w) = add_debug (l1 ++ l2) w.
Proof. unfold add_debug; simpl. by rewrite app_assoc. Qed.

Lemma event_body_spec success event w :
  event_body success event w =
    (inl (if event_ok event then success else false),
     add_debug (event_debug event) w).
Proof.
  cbv [event_body event_ok event_debug add_debug
         mbind M_bind bind mret M_ret ret logger_debug modify].
  destruct (failed event) as [action|]; cbn [calls sleeps debug reports].
  { by rewrite <- app_assoc. }
  destruct (unexpectedExitStatus event) as [action|]; [|reflexivity].
  destruct (exitStatus action =? 0)%Z, (stderr action);
    cbn [calls sleeps debug reports]; by rewrite <- ?app_assoc.
Qed.

Lemma events_loop_spec evs :
  forall success w,
    events_loop success evs w =
      (inl (success && forallb event_ok evs),
       add_debug (concat (event_debug <$> evs)) w).
Proof.
  induction evs as [|event evs IH]; intros success w.
  - simpl. by rewrite andb_true_r, add_debug_nil.
  - cbn [events_loop]. unfold mbind, M_bind, bind.
    rewrite event_body_spec, IH, add_debug_app. simpl.
    by destruct (event_ok event), success.
Qed.

Lemma event_ok_iff event :
  event_ok event = true <->
  failed event = None /\
  forall action, unexpectedExitStatus event = Some action ->
                 exitStatus action = 0%Z.
Proof.
  unfold event_ok.
  destruct (failed event) as [f|].
  { split; [discriminate|]. intros [? _]; discriminate. }
  destruct (unexpectedExitStatus event) as [action|].
  - rewrite Z.eqb_eq. split.
    + intros Hz. split; [done|]. by intros a [= <-].
    + intros [_ Hz]. by apply Hz.
  - split; [|done]. intros _. split; [done|]. intros a; discriminate.
Qed.

Lemma descriptions_sublist evs :
  (ev_description <$> evs) `sublist_of` concat (event_debug <$> evs).
Proof.
  induction evs as [|event evs IH]; [constructor|].
  cbn [fmap list_fmap concat]. unfold event_debug at 1.
  cbn [app]. apply sublist_skip.
  by apply sublist_inserts_l.
Qed.

(** C6: a completed status is judged successful exactly when no event
    carries a [failed] record and no event carries a non-zero exit status;
    one event with a non-zero exit status gives failure, zero-exit events
    alone give success, no event gives success, and every event is visited:
    the description of each is printed, in order, whatever came before. *)
Theorem job_was_successful_iff (status : Status) (w : World) :
  exists ok lines,
    _job_was_successful status w = (inl ok, add_debug lines w) /\
    (ok = true <->
     forall event, event ∈ events status ->
       failed event = None /\
       forall action, unexpectedExitStatus event = Some action ->
                      exitStatus action = 0%Z) /\
    (forall event action, event ∈ events status ->
       unexpectedExitStatus event = Some action ->
       exitStatus action ≠ 0%Z -> ok = false) /\
    ((forall event, event ∈ events status ->
        failed event = None /\
        exists action, unexpectedExitStatus event = Some action /\
                       exitStatus action = 0%Z) -> ok = true) /\
    (events status = [] -> ok = true) /\
    (ev_description <$> events status) `sublist_of` lines.
Proof.
  exists (forallb event_ok (events status)),
         (concat (event_debug <$> events status)).
  assert (Hiff : forallb event_ok (events status) = true <->
                 forall event, event ∈ events status ->
                   failed event = None /\
                   forall action, unexpectedExitStatus event = Some action ->
                                  exitStatus action = 0%Z).
  { rewrite forallb_forall. split.
    - intros H event Hin. apply event_ok_iff, H. by apply list_elem_of_In.
    - intros H event Hin. apply event_ok_iff, H. by apply list_elem_of_In. }
  split; [|split; [|split; [|split; [|split]]]].
  - unfold _job_was_successful. by rewrite events_loop_spec.
  - exact Hiff.
  - intros event action Hin Hexit Hne.
    apply not_true_is_false. intros Hok.
    destruct (proj1 Hiff Hok event Hin) as [_ Hzero]. by apply Hne, Hzero.
  - intros Hall. apply Hiff. intros event Hin.
    destruct (Hall event Hin) as (Hf & action & Hu & Hz).
    split; [done|]. intros action' Hu'. congruence.
  - intros ->. reflexivity.
  - apply descriptions_sublist.
Qed.

(** ** Dictionaries *)

Lemma dict_set_fresh {V} (k : string) (v : V) (d : dict V) :
  k ∉ dict_keys d -> dict_set k v d = d ++ [(k, v)].
Proof.
  induction d as [|[k' v'] d IH]; intros Hk; [done|].
  simpl in *. apply not_elem_of_cons in Hk as [Hne Hk].
  destruct (String.eqb_spec k k') as [->|_]; [done|].
  by rewrite IH.
Qed.

Lemma dict_keys_app {V} (d1 d2 : dict V) :
  dict_keys (d1 ++ d2) = dict_keys d1 ++ dict_keys d2.
Proof. unfold dict_keys. apply fmap_app. Qed.

Lemma dict_get_elem {V} (k : string) (v : V) (d : dict V) :
  NoDup (dict_keys d) -> (k, v) ∈ d -> dict_get k d = Some v.
Proof.
  induction d as [|[k' v'] d IH]; intros Hnd Hin.
  - by apply elem_of_nil in Hin.
  - simpl in *. apply NoDup_cons in Hnd as [Hk' Hnd].
    apply elem_of_cons in Hin as [[= <- <-]|Hin].
    + by rewrite String.eqb_refl.
    + destruct (String.eqb_spec k k') as [->|_]; [|by apply IH].
      destruct Hk'. change k' with ((k', v).1). by apply list_elem_of_fmap_2.
Qed.

(** A loop that copies the chosen items of a dictionary into a new one
    keeps them in order. *)
Lemma copy_loop_filter {V} (P : string * V -> bool) (d : dict V) :
  forall acc,
    NoDup (dict_keys (acc ++ d)) ->
    foldl (fun keepers '(name, v) =>
             if P (name, v) then dict_set name v keepers else keepers)
          acc d
    = acc ++ filter (fun item => P item = true) d.
Proof.
  induction d as [|[k v] d IH]; intros acc Hnd.
  - by rewrite app_nil_r.
  - cbn [foldl]. rewrite filter_cons.
    destruct (P (k, v)) eqn:HP.
    + rewrite decide_True by done.
      rewrite dict_set_fresh.
      * rewrite IH; [by rewrite <- app_assoc|]. by rewrite <- app_assoc.
      * rewrite dict_keys_app in Hnd. apply NoDup_app in Hnd as (_ & Hd & _).
        intros Hin. apply (Hd k Hin). simpl. constructor.
    + rewrite decide_False by done.
      apply IH. rewrite dict_keys_app in *.
      apply NoDup_app in Hnd as (Ha & Hd & Hk).
      apply NoDup_app. split; [done|]. split.
      * intros x Hx Hx'. apply (Hd x Hx). simpl. by constructor.
      * simpl in Hk. by apply NoDup_cons in Hk as [_ ?].
Qed.

Lemma NoDup_keys_filter {V} (P : string * V -> Prop)
    `{!forall x, Decision (P x)} (d : dict V) :
  NoDup (dict_keys d) -> NoDup (dict_keys (filter P d)).
Proof.
  unfold dict_keys. intros Hnd.
  apply (sublist_NoDup _ (d.*1)); [done|].
  apply fmap_sublist, sublist_filter.
Qed.

Lemma dict_keys_set {V} (k : string) (v : V) (d : dict V) :
  dict_keys (dict_set k v d)
  = if decide (k ∈ dict_keys d) then dict_keys d else dict_keys d ++ [k].
Proof.
  unfold dict_keys. induction d as [|[k' v'] d IH].
  - by rewrite decide_False by apply not_elem_of_nil.
  - cbn [dict_set]. destruct (String.eqb_spec k k') as [->|Hne].
    + rewrite !fmap_cons. cbn [fst].
      by rewrite decide_True by constructor.
    + rewrite !fmap_cons, IH. cbn [fst].
      destruct (decide (k ∈ d.*1)) as [Hin|Hnot].
      * rewrite decide_True; [done|]. by constructor.
      * rewrite decide_False; [done|].
        intros Hin. apply elem_of_cons in Hin as [?|?]; done.
Qed.

Lemma NoDup_dict_set {V} (k : string) (v : V) (d : dict V) :
  NoDup (dict_keys d) -> NoDup (dict_keys (dict_set k v d)).
Proof.
  intros Hnd. rewrite dict_keys_set. case_decide; [done|].
  apply NoDup_app. split; [done|]. split; [|apply NoDup_singleton].
  intros x Hx Hx'. apply list_elem_of_singleton in Hx'. by subst.
Qed.

Lemma elem_of_keys_set {V} (k k' : string) (v : V) (d : dict V) :
  k' ∈ dict_keys (dict_set k v d) <-> k' = k \/ k' ∈ dict_keys d.
Proof.
  rewrite dict_keys_set. case_decide as Hin.
  - split; [by right|]. intros [->|?]; done.
  - rewrite elem_of_app, list_elem_of_singleton. tauto.
Qed.

Lemma dict_del_keys {V} (k : string) (d : dict V) :
  NoDup (dict_keys d) ->
  NoDup (dict_keys (dict_del k d)) /\
  forall k', k' ∈ dict_keys (dict_del k d) <-> k' ∈ dict_keys d /\ k' ≠ k.
Proof.
  induction d as [|[k0 v0] d IH]; intros Hnd.
  - simpl. split; [done|]. intros k'. split; [|tauto].
    intros Hin. by apply elem_of_nil in Hin.
  - simpl in Hnd. apply NoDup_cons in Hnd as [Hk0 Hnd].
    destruct (IH Hnd) as [IHnd IHin].
    cbn [dict_del]. destruct (String.eqb_spec k k0) as [->|Hne].
    + split; [done|]. intros k'. simpl. rewrite elem_of_cons.
      split; [|tauto]. intros Hin. split; [by right|]. by intros ->.
    + split.
      * simpl. apply NoDup_cons. split; [|done].
        intros Hin. apply IHin in Hin as [? _]. done.
      * intros k'. simpl. rewrite !elem_of_cons, IHin.
        split; [|tauto]. intros [->|[? ?]]; [by split; [left|]|tauto].
Qed.

Lemma dict_del_all_keys {V} (ks : list string) (d : dict V) :
  NoDup (dict_keys d) ->
  NoDup (dict_keys (foldr dict_del d ks)) /\
  forall k', k' ∈ dict_keys (foldr dict_del d ks)
             <-> k' ∈ dict_keys d /\ k' ∉ ks.
Proof.
  intros Hnd. induction ks as [|k ks [IHnd IHin]].
  - simpl. split; [done|]. intros k'. split; [|tauto].
    intros ?. split; [done|]. apply not_elem_of_nil.
  - cbn [foldr]. destruct (dict_del_keys k (foldr dict_del d ks) IHnd)
      as [Hnd' Hin'].
    split; [done|]. intros k'. rewrite Hin', IHin, not_elem_of_cons. tauto.
Qed.

Lemma dict_del_last {V} (k : string) (v : V) (d : dict V) :
  k ∉ dict_keys d -> dict_del k (d ++ [(k, v)]) = d.
Proof.
  induction d as [|[k' v'] d IH]; intros Hk.
  - simpl. by rewrite String.eqb_refl.
  - simpl in *. apply not_elem_of_cons in Hk as [Hne Hk].
    destruct (String.eqb_spec k k') as [->|_]; [done|]. by rewrite IH.
Qed.

(** ** Machine type selection *)

(** The first pass keeps, in order, the shapes that meet the request. *)
Lemma first_pass_loop cores mem (d : dict MachineType) :
  forall acc c m,
    (foldl (fun '(keepers, max_cpu, max_mem) '(name, machine_type) =>
              let max_cpu := Z.max max_cpu (guestCpus machine_type) in
              let max_mem := Z.max max_mem (memoryMb machine_type) in
              if (guestCpus machine_type <? cores)%Z
                 || (memoryMb machine_type <? mem)%Z
              then (keepers, max_cpu, max_mem)
              else (dict_set name machine_type keepers, max_cpu, max_mem))
           (acc, c, m) d).1.1
    = foldl (fun keepers '(name, v) =>
               if adequateb cores mem (name, v)
               then dict_set name v keepers else keepers)
            acc d.
Proof.
  induction d as [|[name shape] d IH]; intros acc c m; [done|].
  cbn [foldl]. unfold adequateb at 2. cbn [snd].
  destruct ((guestCpus shape <? cores)%Z || (memoryMb shape <? mem)%Z);
    cbn [negb]; apply IH.
Qed.

Lemma first_pass_keepers cores mem (machine_types : dict MachineType) :
  NoDup (dict_keys machine_types) ->
  (first_pass cores mem machine_types).1.1
  = filter (fun item => adequateb cores mem item = true) machine_types.
Proof.
  intros Hnd. unfold first_pass.
  rewrite first_pass_loop. by rewrite copy_loop_filter.
Qed.

Lemma adequateb_spec cores mem item :
  adequateb cores mem item = true <-> adequate cores mem item.2.
Proof.
  unfold adequateb, adequate.
  rewrite negb_true_iff, orb_false_iff, !Z.ltb_ge. done.
Qed.

Lemma smaller_step_incumbent best seen item :
  incumbent_of best seen ->
  incumbent_of (smaller_step best item) (seen ++ [item]).
Proof.
  destruct best as [[smallest min_cores] min_mem], item as [name shape].
  intros (cur & Hin & Hc & Hm & Hmin). simpl in Hin, Hc, Hm. subst.
  unfold smaller_step.
  destruct ((guestCpus shape <? guestCpus cur)%Z
            && (memoryMb shape <? memoryMb cur)%Z) eqn:Hlt.
  - apply andb_true_iff in Hlt as [Hlc Hlm].
    apply Z.ltb_lt in Hlc, Hlm.
    exists shape. simpl. split; [apply elem_of_app; right; constructor|].
    do 2 (split; [done|]).
    intros name' shape' Hin' [Hc' Hm'].
    apply elem_of_app in Hin' as [Hin'|Hin'].
    + apply (Hmin name' shape' Hin'). split; lia.
    + apply list_elem_of_singleton in Hin' as [= _ ->]. lia.
  - exists cur. simpl. split; [apply elem_of_app; by left|].
    do 2 (split; [done|]).
    intros name' shape' Hin' [Hc' Hm'].
    apply elem_of_app in Hin' as [Hin'|Hin'].
    + apply (Hmin name' shape' Hin'). by split.
    + apply list_elem_of_singleton in Hin' as [= _ ->].
      apply andb_false_iff in Hlt as [Hlt|Hlt]; apply Z.ltb_ge in Hlt; lia.
Qed.

Lemma smallest_loop_incumbent items :
  forall best seen,
    incumbent_of best seen ->
    incumbent_of (foldl smaller_step best items) (seen ++ items).
Proof.
  induction items as [|item items IH]; intros best seen Hinv.
  - by rewrite app_nil_r.
  - cbn [foldl]. rewrite (cons_middle item seen items), app_assoc.
    by apply IH, smaller_step_incumbent.
Qed.

(** The shape that the search returns: a member of the candidates that no
    candidate undercuts in both dimensions. *)
Lemma find_smallest_minimal first rest :
  NoDup (dict_keys (first :: rest)) ->
  exists selected,
    dict_get (find_smallest first (first :: rest)) (first :: rest)
      = Some selected /\
    (find_smallest first (first :: rest), selected) ∈ first :: rest /\
    forall name' shape', (name', shape') ∈ first :: rest ->
                         ~ smaller_in_both shape' selected.
Proof.
  intros Hnd. unfold find_smallest.
  destruct first as [name shape]. cbn [fst snd foldl].
  replace (smaller_step (name, guestCpus shape, memoryMb shape) (name, shape))
    with (name, guestCpus shape, memoryMb shape).
  2:{ unfold smaller_step.
      by rewrite Z.ltb_irrefl. }
  destruct (smallest_loop_incumbent rest
              (name, guestCpus shape, memoryMb shape) [(name, shape)])
    as (selected & Hin & _ & _ & Hmin).
  { exists shape. simpl. split; [constructor|]. do 2 (split; [done|]).
    intros name' shape' Hin' [Hc' Hm'].
    apply list_elem_of_singleton in Hin' as [= _ ->]. lia. }
  exists selected. split; [by apply dict_get_elem|]. by split.
Qed.

(** C1 (amended): when no machine type prefix is set and some single shape
    of the catalog has both enough cpus and enough memory, the selection
    succeeds and returns a shape of the catalog with at least the requested
    cpus and memory; when no single shape has both, it raises the error
    that no machine type is available. *)
Theorem select_machine_type_adequate (prefix : option string)
    (cores mem : Z) (catalog : dict MachineType) :
  NoDup (dict_keys catalog) ->
  truthyS prefix = false ->
  ((exists name shape, (name, shape) ∈ catalog /\ adequate cores mem shape) ->
   exists name shape,
     select_machine_type prefix cores mem catalog = inl (name, shape) /\
     (name, shape) ∈ catalog /\ adequate cores mem shape) /\
  ((forall name shape, (name, shape) ∈ catalog ->
                       ~ adequate cores mem shape) ->
   exists msg,
     select_machine_type prefix cores mem catalog = inr (WorkflowError msg)).
Proof.
  intros Hnd Hprefix.
  pose proof (first_pass_keepers cores mem catalog Hnd) as Hkeep.
  pose proof (NoDup_keys_filter
                (fun item => adequateb cores mem item = true) catalog Hnd)
    as Hndk.
  unfold select_machine_type.
  destruct (first_pass cores mem catalog) as [[keepers max_cpu] max_mem].
  simpl in Hkeep. rewrite Hprefix. rewrite <- Hkeep in Hndk. split.
  - intros (name & shape & Hin & Hok).
    assert (Hin' : (name, shape) ∈ keepers).
    { rewrite Hkeep. apply list_elem_of_filter. split; [|done].
      by apply adequateb_spec. }
    destruct keepers as [|first rest]; [by apply elem_of_nil in Hin'|].
    destruct (find_smallest_minimal first rest Hndk)
      as (selected & Hget & Hsel & _).
    rewrite Hget. eexists _, selected. split; [done|].
    generalize dependent (find_smallest first (first :: rest)).
    intros smallest _ Hsel.
    rewrite Hkeep in Hsel. apply list_elem_of_filter in Hsel as [Hok' Hsel].
    split; [done|]. by apply adequateb_spec in Hok'.
  - intros Hnone.
    destruct keepers as [|[name shape] rest]; [by eexists|].
    assert (Hin : (name, shape) ∈ filter
                    (fun item => adequateb cores mem item = true) catalog).
    { rewrite <- Hkeep. constructor. }
    apply list_elem_of_filter in Hin as [Hok Hin].
    apply adequateb_spec in Hok. by destruct (Hnone name shape Hin).
Qed.

Lemma select_machine_type_adequate_witness :
  exists name shape,
    select_machine_type None 3 4096 catalog_AB = inl (name, shape) /\
    (name, shape) ∈ catalog_AB /\ adequate 3 4096 shape.
Proof.
  refine (proj1 (select_machine_type_adequate None 3 4096 catalog_AB _ _) _).
  - unfold catalog_AB. simpl. apply NoDup_cons. split.
    + intros Hin. apply list_elem_of_singleton in Hin. discriminate.
    + apply NoDup_singleton.
  - reflexivity.
  - exists "B", shape_B. split.
    + unfold catalog_AB. apply elem_of_cons. right. constructor.
    + unfold adequate, shape_B. simpl. lia.
Defined.

(** C1 (as stated) fails: 8 cores are the maximum of the catalog and
    26624 MB are the maximum of the catalog, no prefix is set, and the plan
    is the error that no machine type is available. *)
Lemma plan_fails_within_both_maxima :
  (exists shape, shape ∈ [highcpu; highmem] /\
                 (8 <= guestCpus shape)%Z) /\
  (exists shape, shape ∈ [highcpu; highmem] /\
                 (26624 <= memoryMb shape)%Z) /\
  (get_available_machine_types (regions plain_settings) split_cli
     fresh_world).1
    = inl [("n1-highcpu-8", highcpu); ("n1-highmem-4", highmem)] /\
  (_generate_job_resources plain_settings split_cli split_job
     fresh_executor).1
    = inr (WorkflowError
             ("You requested 26624 MB memory, 8 cores. "
              +:+ "The maximum available are 26624 MB memory and 8 cores. "
              +:+ "These resources cannot be satisfied. "
              +:+ "Please consider reducing the resource requirements of the "
              +:+ "corresponding rule.")).
Proof.
  split; [|split; [|split]].
  - exists highcpu. split; [constructor|]. simpl. lia.
  - exists highmem. split; [apply elem_of_cons; right; constructor|].
    simpl. lia.
  - vm_compute. reflexivity.
  - vm_compute. reflexivity.
Qed.





(** ** The planner and the state of the executor *)

(** [_add_gpu] with a count that is neither [None] nor zero writes the
    count to the default resources of the workflow, whatever follows. *)
Lemma add_gpu_writes_default_resources (count : Z) (e : Executor) :
  count ≠ 0%Z ->
  default_resources (_add_gpu (Some count) e).2
  = <["nvidia_gpu" := count]> (default_resources e).
Proof.
  intros Hne. unfold _add_gpu, truthyZ.
  destruct (Z.eqb_spec count 0) as [->|_]; [done|].
  rewrite bool_decide_eq_false_2 by congruence.
  cbv [mbind M_bind bind mret M_ret ret modify liftW getattr raise
       logger_debug negb orb].
  cbn [world set_world set_default_resources set__machine_type_prefix
       _machine_type_prefix default_resources fst snd].
  destruct (_machine_type_prefix e) as [|old]; [done|].
  by destruct (startswith _ "n1").
Qed.

(** The quotient by 1024 is exact below [2^53]. *)
Lemma nearest_double_exact (a : Z) :
  (Z.abs a < 2 ^ 53)%Z -> nearest_double a = a.
Proof.
  intros Ha. unfold nearest_double.
  assert (Hbits : (Z.log2 (Z.abs a) + 1 <= 53)%Z).
  { destruct (Z.eq_dec (Z.abs a) 0%Z) as [->|Hne]; [simpl; lia|].
    assert (Z.log2 (Z.abs a) < 53)%Z; [|lia].
    apply Z.log2_lt_pow2; lia. }
  apply Z.leb_le in Hbits. by rewrite Hbits.
Qed.

Lemma ceil_div_1024_exact (a : Z) :
  (Z.abs a < 2 ^ 53)%Z -> ceil_div_1024 a = inl (- ((- a) / 1024))%Z.
Proof.
  intros Ha. unfold ceil_div_1024. rewrite (nearest_double_exact a Ha).
  assert (Hlt : (Z.abs a < double_limit)%Z).
  { unfold double_limit. eapply Z.lt_le_trans; [exact Ha|].
    apply Z.pow_le_mono_r; lia. }
  apply Z.leb_gt in Hlt. by rewrite Hlt.
Qed.

(** The planner up to the preemptible flag, for a job without GPUs whose
    shape is found. *)
Ltac plan_to_preemptible job Hgpu Hmem Hdisk Hrange Hfetch Hselect :=
  unfold _generate_job_resources;
  fold (requested_gpus job); rewrite Hgpu, Hmem, Hdisk;
  cbv [mbind M_bind bind mret M_ret ret modify liftW getattr of_sum raise
       attribute];
  rewrite (ceil_div_1024_exact _ Hrange);
  cbn [world set_machine_type_prefix set_world machine_type_prefix fst snd];
  rewrite Hfetch; cbv [logger_debug modify];
  cbn [world set_machine_type_prefix set_world machine_type_prefix fst snd];
  rewrite Hselect;
  cbn [world set_machine_type_prefix set_world machine_type_prefix fst snd].

(** X4: the plan of a single job without GPUs, once the catalog is fetched
    and a shape is selected, reads [self.preemptible_rules].  As
    [__init__] leaves the executor that attribute does not exist, and the
    plan is an [AttributeError].  When the attribute has been assigned the
    plan is returned: it names the selected shape, adds 10 GB to the disk
    rounded up to whole GB (for a disk below [2^53] MB, where the division
    is exact), and takes the preemptible flag of the rule. *)
Theorem plan_machine_type settings cli job e mem disk catalog w1 name shape :
  truthyZ (requested_gpus job) = false ->
  is_group job = false ->
  mem_mb (resources job) = Some mem ->
  disk_mb (resources job) = Some disk ->
  (Z.abs disk < 2 ^ 53)%Z ->
  get_available_machine_types (regions settings) cli (world e)
  = (inl catalog, w1) ->
  select_machine_type (machine_type (resources job))
    (default 1%Z (_cores (resources job))) mem catalog = inl (name, shape) ->
  (preemptible_rules settings = Unset ->
   (_generate_job_resources settings cli job e).1
   = inr (AttributeError "preemptible_rules")) /\
  (forall is_preemptible,
     preemptible_rules settings = Assigned is_preemptible ->
     exists plan,
       (_generate_job_resources settings cli job e).1 = inl plan /\
       machineType (virtualMachine plan) = name /\
       bootDiskSizeGb (virtualMachine plan) = (- ((- disk) / 1024) + 10)%Z /\
       preemptible (virtualMachine plan) = is_preemptible (rule_name job)).
Proof.
  intros Hgpu Hgroup Hmem Hdisk Hrange Hfetch Hselect.
  plan_to_preemptible job Hgpu Hmem Hdisk Hrange Hfetch Hselect.
  rewrite Hgroup. split.
  - by intros ->.
  - intros is_preemptible ->. by eexists.
Qed.

Lemma plan_machine_type_witness :
  (_generate_job_resources initial_settings gpu_cli cpu_job fresh_executor).1
  = inr (AttributeError "preemptible_rules") /\
  exists plan,
    (_generate_job_resources plain_settings gpu_cli cpu_job
       fresh_executor).1 = inl plan /\
    machineType (virtualMachine plan) = "n1-standard-4" /\
    bootDiskSizeGb (virtualMachine plan) = 11%Z /\
    preemptible (virtualMachine plan) = false.
Proof.
  split.
  - refine (proj1 (plan_machine_type initial_settings gpu_cli cpu_job
                     fresh_executor 8192 1000
                     [("n1-standard-4", n1_standard_4)] _
                     "n1-standard-4" n1_standard_4 _ _ _ _ _ _ _) _);
      try (vm_compute; reflexivity).
  - refine (proj2 (plan_machine_type plain_settings gpu_cli cpu_job
                     fresh_executor 8192 1000
                     [("n1-standard-4", n1_standard_4)] _
                     "n1-standard-4" n1_standard_4 _ _ _ _ _ _ _)
              (fun _ => false) _);
      try (vm_compute; reflexivity).
Defined.




(** ** The catalog resolver *)

(** With a single zone in the regions nothing is filtered: the loop that
    drops the micro, e2 and m1 names runs over the other zones only. *)
Lemma single_zone_unfiltered regions cli w zones zone types w1 w2 :
  retry (zones_list cli) w = (inl zones, w1) ->
  filter (fun z => zone_in_regions regions z) zones = [zone] ->
  retry (machineTypes_list cli zone) w1 = (inl types, w2) ->
  get_available_machine_types regions cli w = (inl (by_name types), w2).
Proof.
  intros Hzones Hfilter Htypes. unfold get_available_machine_types.
  cbv [mbind M_bind bind mret M_ret ret].
  rewrite Hzones, Hfilter. cbn [fetch_zones].
  cbv [mbind M_bind bind mret M_ret ret].
  rewrite Htypes. cbn [last dict_set dict_get dict_del foldl].
  rewrite String.eqb_refl. cbn [foldl].
  by rewrite elements_empty.
Qed.

Lemma by_name_keys types :
  NoDup (dict_keys (by_name types)) /\
  forall name, name ∈ dict_keys (by_name types) <-> name ∈ mt_name <$> types.
Proof.
  unfold by_name.
  cut (forall acc : dict MachineType,
         NoDup (dict_keys acc) ->
         NoDup (dict_keys
                  (foldl (fun d mt => dict_set (mt_name mt) mt d) acc types)) /\
         forall name,
           name ∈ dict_keys
                    (foldl (fun d mt => dict_set (mt_name mt) mt d) acc types)
           <-> name ∈ dict_keys acc \/ name ∈ mt_name <$> types).
  { intros H. destruct (H [] (NoDup_nil_2)) as [Hnd Hin].
    split; [done|]. intros name. rewrite Hin. simpl.
    split; [intros [Hn|?]; [by apply elem_of_nil in Hn|done]|by right]. }
  induction types as [|mt types IH]; intros acc Hnd.
  - simpl. split; [done|]. intros name.
    split; [by left|]. intros [?|Hn]; [done|by apply elem_of_nil in Hn].
  - cbn [foldl]. destruct (IH (dict_set (mt_name mt) mt acc)) as [Hnd' Hin].
    { by apply NoDup_dict_set. }
    split; [done|]. intros name. rewrite Hin, elem_of_keys_set.
    rewrite fmap_cons, elem_of_cons. tauto.
Qed.

Lemma mark_missing_elem (machine_types : dict MachineType) names to_remove k :
  k ∈ mark_missing machine_types names to_remove
  <-> k ∈ to_remove \/ (k ∈ dict_keys machine_types /\ k ∉ names).
Proof.
  unfold mark_missing. revert to_remove.
  induction (dict_keys machine_types) as [|key keys IH]; intros to_remove.
  - simpl. split; [by left|]. intros [?|[Hin _]]; [done|].
    by apply elem_of_nil in Hin.
  - cbn [foldl]. rewrite IH, elem_of_cons. case_bool_decide as Hin.
    + split; [tauto|]. intros [?|[[->|?] ?]]; tauto.
    + rewrite elem_of_union, elem_of_singleton.
      split; [intros [[->|?]|?]; tauto|].
      intros [?|[[->|?] ?]]; tauto.
Qed.

Lemma to_remove_elem (machine_types : dict MachineType)
    (lookup : dict (list MachineType)) k :
  forall acc,
    k ∈ foldl (fun acc '(_, types) =>
                 mark_missing machine_types (zone_names types) acc)
              acc lookup
    <-> k ∈ acc \/
        (k ∈ dict_keys machine_types /\
         exists zone types, (zone, types) ∈ lookup /\ k ∉ zone_names types).
Proof.
  induction lookup as [|[zone types] lookup IH]; intros acc.
  - simpl. split; [by left|]. intros [?|(_ & z & t & Hin & _)]; [done|].
    by apply elem_of_nil in Hin.
  - cbn [foldl]. rewrite IH, mark_missing_elem. split.
    + intros [[?|[? ?]]|(? & z & t & Hin & ?)].
      * by left.
      * right. split; [done|]. exists zone, types. split; [constructor|done].
      * right. split; [done|]. exists z, t. split; [by constructor|done].
    + intros [?|(? & z & t & Hin & ?)]; [tauto|].
      apply elem_of_cons in Hin as [[= -> ->]|Hin]; [tauto|].
      right. split; [done|]. by exists z, t.
Qed.

Lemma zone_names_elem types name :
  name ∈ zone_names types
  <-> name ∈ mt_name <$> types /\ discouraged name = false.
Proof.
  unfold zone_names, discouraged. rewrite !list_elem_of_filter.
  rewrite !negb_True, !Is_true_false, !orb_false_iff. tauto.
Qed.

Lemma retry_answers {A} (req : request A) w r :
  req (calls w) = inl r -> retry req w = (inl r, after_calls 1 [] w).
Proof.
  intros Hreq. unfold retry, _retry_request.
  apply (retry_rec_recovers req 0); [lia| |by rewrite Nat.add_0_r].
  intros i Hi. lia.
Qed.

Lemma after_calls_more n w :
  after_calls n [] (after_calls 1 [] w) = after_calls (S n) [] w.
Proof.
  unfold after_calls; simpl. rewrite !app_nil_r. f_equal. lia.
Qed.

Lemma fetch_zones_serves cli all_zones shapes zones :
  serves cli all_zones shapes ->
  forall acc w,
    NoDup (dict_keys acc ++ zones) ->
    fetch_zones cli zones acc w
    = (inl (acc ++ ((fun zone => (zone, shapes zone)) <$> zones)),
       after_calls (length zones) [] w).
Proof.
  intros [_ Hshapes].
  induction zones as [|zone zones IH]; intros acc w Hnd.
  - simpl. by rewrite app_nil_r, after_calls_0.
  - cbn [fetch_zones]. cbv [mbind M_bind bind].
    rewrite (retry_answers _ w (shapes zone)) by apply Hshapes.
    rewrite dict_set_fresh.
    2:{ apply NoDup_app in Hnd as (_ & Hd & _). intros Hin.
        apply (Hd zone Hin). constructor. }
    rewrite IH.
    + rewrite after_calls_more, <- app_assoc. done.
    + rewrite dict_keys_app, <- app_assoc. exact Hnd.
Qed.

(** X2: with two or more zones in the regions, and a service that answers,
    the resolver returns exactly the shapes whose names every zone lists,
    less the micro, e2 and m1 names. *)
Theorem catalog_of_several_zones regions cli all_zones shapes w :
  serves cli all_zones shapes ->
  NoDup all_zones ->
  2 <= length (filter (fun z => zone_in_regions regions z) all_zones) ->
  exists catalog w',
    get_available_machine_types regions cli w = (inl catalog, w') /\
    NoDup (dict_keys catalog) /\
    forall name,
      name ∈ dict_keys catalog
      <-> (forall zone,
             zone ∈ filter (fun z => zone_in_regions regions z) all_zones ->
             name ∈ mt_name <$> shapes zone) /\
          discouraged name = false.
Proof.
  intros Hserves Hnd Hlen.
  set (zones := filter (fun z => zone_in_regions regions z) all_zones) in *.
  assert (Hndz : NoDup zones) by by apply NoDup_filter.
  destruct (last zones) as [zl|] eqn:Hlast.
  2:{ apply last_None in Hlast. rewrite Hlast in Hlen. simpl in Hlen. lia. }
  apply last_Some in Hlast as [init Hzones].
  assert (Hinit : exists z0, z0 ∈ init).
  { destruct init as [|z0 init]; [|exists z0; constructor].
    rewrite Hzones in Hlen. simpl in Hlen. lia. }
  set (f := fun zone => (zone, shapes zone)).
  assert (Hkeys : forall l, dict_keys (f <$> l) = l).
  { intros l. unfold dict_keys. rewrite <- list_fmap_compose.
    apply list_fmap_id. }
  rewrite Hzones in Hndz. apply NoDup_app in Hndz as (Hndi & Hzl & _).
  assert (Hzl' : zl ∉ init).
  { intros Hin. apply (Hzl zl Hin). constructor. }
  unfold get_available_machine_types. cbv [mbind M_bind bind].
  rewrite (retry_answers _ w all_zones) by apply Hserves.
  fold zones. rewrite (fetch_zones_serves cli all_zones shapes zones
                         Hserves [] _).
  2:{ simpl. rewrite Hzones. apply NoDup_app. split; [done|].
      split; [done|apply NoDup_singleton]. }
  rewrite app_nil_l, Hzones, last_snoc, fmap_app. cbn [fmap list_fmap].
  fold f.
  rewrite (dict_get_elem zl (shapes zl)).
  2:{ rewrite dict_keys_app, Hkeys. simpl. apply NoDup_app. split; [done|].
      split; [done|apply NoDup_singleton]. }
  2:{ apply elem_of_app. right. constructor. }
  rewrite dict_del_last by by rewrite Hkeys.
  destruct (by_name_keys (shapes zl)) as [Hndb Hinb].
  eexists _, _. split; [reflexivity|].
  match goal with |- NoDup (dict_keys (foldr dict_del ?d ?ks)) /\ _ =>
    destruct (dict_del_all_keys ks d Hndb) as [Hndr Hinr] end.
  split; [done|]. intros name.
  rewrite Hinr, Hinb, elem_of_elements, to_remove_elem, Hinb. split.
  - intros [Hlast Hkeep].
    assert (Hall : forall zone, zone ∈ init ->
                                name ∈ zone_names (shapes zone)).
    { intros zone Hin.
      destruct (decide (name ∈ zone_names (shapes zone))) as [?|Hnot];
        [done|].
      destruct Hkeep. right. split; [done|].
      exists zone, (shapes zone). split; [|done].
      by apply (list_elem_of_fmap_2 f). }
    split.
    + intros zone Hin. apply elem_of_app in Hin as [Hin|Hin].
      * by apply zone_names_elem, Hall.
      * apply list_elem_of_singleton in Hin as ->. done.
    + destruct Hinit as [z0 Hz0]. by apply (zone_names_elem (shapes z0)), Hall.
  - intros [Hall Hok]. split.
    + apply Hall, elem_of_app. right. constructor.
    + intros [Hin|(_ & zone & types & Hin & Hnot)].
      * by apply elem_of_empty in Hin.
      * apply list_elem_of_fmap in Hin as (z & [= -> ->] & Hz).
        apply Hnot, zone_names_elem. split; [|done].
        apply Hall, elem_of_app. by left.
Qed.

Lemma catalog_of_several_zones_witness :
  exists catalog w',
    get_available_machine_types ["us-east1"] two_zone_cli fresh_world
    = (inl catalog, w') /\
    NoDup (dict_keys catalog) /\
    forall name,
      name ∈ dict_keys catalog
      <-> (forall zone,
             zone ∈ filter (fun z => zone_in_regions ["us-east1"] z)
                      ["us-east1-b"; "us-east1-c"; "europe-west1-b"] ->
             name ∈ mt_name <$> zone_shapes) /\
          discouraged name = false.
Proof.
  apply (catalog_of_several_zones ["us-east1"] two_zone_cli
           ["us-east1-b"; "us-east1-c"; "europe-west1-b"]
           (fun _ => zone_shapes) fresh_world).
  - split; reflexivity.
  - apply (bool_decide_unpack _). vm_compute. exact I.
  - vm_compute. lia.
Defined.

(** X3: the catalog that the resolver returns is a dictionary: its keys
    are distinct. *)
Lemma catalog_keys_NoDup regions cli w catalog w' :
  get_available_machine_types regions cli w = (inl catalog, w') ->
  NoDup (dict_keys catalog).
Proof.
  unfold get_available_machine_types. cbv [mbind M_bind bind mret M_ret ret].
  destruct (retry (zones_list cli) w) as [[zones|ex] w1]; [|discriminate].
  destruct (fetch_zones cli _ [] w1) as [[lookup|ex] w2]; [|discriminate].
  destruct (last _) as [zone|]; [|discriminate].
  destruct (dict_get zone lookup) as [types|]; [|discriminate].
  intros [= <- _]. apply dict_del_all_keys, by_name_keys.
Qed.

Lemma catalog_keys_NoDup_witness :
  NoDup (dict_keys [("f1-micro", f1_micro); ("e2-standard-2", e2_standard_2);
                    ("m1-ultramem-40", m1_ultramem_40);
                    ("n1-standard-1", n1_standard_1)]).
Proof.
  refine (catalog_keys_NoDup ["us-east1"] one_zone_cli fresh_world _ _ _).
  vm_compute. reflexivity.
Defined.

(** C5: with one zone in the region the resolver returns the micro, e2 and
    m1 shapes of that zone along with the others, where the specification
    excludes them for any number of zones; with a second zone in the region
    the same shapes are dropped. *)
Theorem single_zone_catalog_keeps_discouraged_shapes :
  (get_available_machine_types ["us-east1"] one_zone_cli fresh_world).1
  = inl [("f1-micro", f1_micro); ("e2-standard-2", e2_standard_2);
         ("m1-ultramem-40", m1_ultramem_40);
         ("n1-standard-1", n1_standard_1)] /\
  (get_available_machine_types ["us-east1"] two_zone_cli fresh_world).1
  = inl [("n1-standard-1", n1_standard_1)].
Proof. split; vm_compute; reflexivity. Qed.

(** ** The source package cache *)

Lemma executor_eta e :
  mkExecutor (world e) (machine_type_prefix e) (_machine_type_prefix e)
    (default_resources e) (_build_packages e) (pipeline_package e)
    (files e) (bucket e) (uploads e) (candidates e) = e.
Proof. by destruct e. Qed.

(** The first loop of the packaging stops at the first source whose
    resolved path does not contain the working directory as a substring,
    and names it. *)
Lemma check_sources_spec settings os e :
  check_sources settings os e =
    match List.find (fun filename =>
                       negb (contains (workdir settings)
                               (realpath os filename)))
            (workflow_sources settings) with
    | Some filename =>
        (inr (WorkflowError
                (outside_workdir_message (workdir settings) filename)), e)
    | None => (inl (), e)
    end.
Proof.
  unfold check_sources.
  induction (workflow_sources settings) as [|filename sources IH]; [done|].
  cbn [for_each List.find]. cbv [mbind M_bind bind].
  destruct (negb (contains _ _)); [done|].
  cbv [mret M_ret ret]. exact IH.
Qed.

(** X9: when the resolved path of some source does not contain the working
    directory, the packaging raises the error that names the first such
    source, and leaves the executor, its files and the bucket as they
    were: nothing is archived or uploaded. *)
Lemma generate_fails_on_outside_source settings os e filename :
  List.find (fun filename =>
               negb (contains (workdir settings) (realpath os filename)))
    (workflow_sources settings) = Some filename ->
  _generate_build_source_package settings os e
  = (inr (WorkflowError
            (outside_workdir_message (workdir settings) filename)), e).
Proof.
  intros Hfind. unfold _generate_build_source_package.
  cbv [mbind M_bind bind]. by rewrite check_sources_spec, Hfind.
Qed.

Lemma generate_fails_on_outside_source_witness :
  _generate_build_source_package outside_settings plain_platform
    started_executor
  = (inr (WorkflowError
            (outside_workdir_message "/home/user/workflow" "/etc/hosts")),
     started_executor).
Proof.
  apply (generate_fails_on_outside_source outside_settings plain_platform
           started_executor "/etc/hosts").
  reflexivity.
Defined.

(** C8: a source in a sibling directory whose path starts like the working
    directory is not under it, yet the package is built with that file in
    it and no error is raised, where the specification has the packaging
    fail. *)
Theorem sibling_source_is_packaged :
  under (workdir sibling_settings)
    (realpath plain_platform "/home/user/workflow-old/Snakefile") = false /\
  _generate_build_source_package sibling_settings plain_platform
    sibling_executor
  = (inl "/home/user/workflow/.snakemake/auxiliary/workdir-1017272428.tar.gz",
     (_generate_build_source_package sibling_settings plain_platform
        sibling_executor).2) /\
  files (_generate_build_source_package sibling_settings plain_platform
           sibling_executor).2
    !! "/home/user/workflow/.snakemake/auxiliary/workdir-1017272428.tar.gz"
  = Some ("/home/user/workflow-old/Snakefile=" +:+ snakefile_bytes).
Proof. split; [|split]; vm_compute; reflexivity. Qed.

Lemma add_sources_state settings sources :
  forall members e, (add_sources settings sources members e).2 = e.
Proof.
  induction sources as [|filename sources IH]; intros members e; [done|].
  cbn [add_sources]. cbv [mbind M_bind bind].
  destruct (files e !! filename); [apply IH|done].
Qed.

(** The second loop of the packaging reads every source and adds it under
    its name relative to the working directory. *)
Lemma add_sources_members settings sources :
  forall members e r e',
    add_sources settings sources members e = (inl r, e') ->
    r = members ++
        ((fun filename =>
            (replace (workdir settings +:+ "/") "" filename,
             default "" (files e !! filename))) <$> sources) /\
    Forall (fun filename => is_Some (files e !! filename)) sources.
Proof.
  induction sources as [|filename sources IH]; intros members e r e'.
  - intros [= <- _]. by rewrite app_nil_r.
  - cbn [add_sources]. cbv [mbind M_bind bind].
    destruct (files e !! filename) as [content|] eqn:Hfile; [|discriminate].
    intros Hrun. apply IH in Hrun as [-> Hall].
    rewrite fmap_cons, Hfile, <- app_assoc. split; [done|].
    constructor; [by rewrite Hfile|done].
Qed.

(** X5: when the temporary archive is not itself one of the sources, a
    packaging that returns has read every source, and the identifier it
    returns is the name made of the digest of the archive of the sources,
    each under its name relative to the working directory and with the
    bytes of its file; the identifier is what the set of build packages
    records, and the file under it holds that archive, unless a file of
    that name was there already, which is then kept. *)
Theorem generate_returns_hash_name settings os e id e' :
  _generate_build_source_package settings os e = (inl id, e') ->
  let targz := path_join (gettempdir os)
                 ("snakemake-" +:+ candidate_name os (candidates e)
                  +:+ ".tar.gz") in
  targz ∉ workflow_sources settings ->
  let bytes := tar_gz os targz (archive_members settings (files e)) in
  id = path_join (aux_path settings)
         ("workdir-" +:+ sha256_hexdigest os bytes +:+ ".tar.gz") /\
  id ∈ _build_packages e' /\
  Forall (fun filename => is_Some (files e !! filename))
    (workflow_sources settings) /\
  (id <> targz -> files e' !! id = Some (default bytes (files e !! id))).
Proof.
  intros Hrun targz Hnotin. revert Hrun.
  unfold _generate_build_source_package.
  cbv [mbind M_bind bind mret M_ret ret modify gets].
  rewrite check_sources_spec.
  destruct (List.find _ _); [discriminate|].
  cbn [candidates set_candidates files set_files]. fold targz.
  match goal with |- context [add_sources ?s ?l ?m ?x] =>
    pose proof (add_sources_state s l m x) as Hst;
    pose proof (add_sources_members s l m x) as Hmem;
    destruct (add_sources s l m x) as [[members|ex] e1] end; [|discriminate].
  simpl in Hst. subst e1.
  destruct (Hmem members _ eq_refl) as [-> Hall]. clear Hmem.
  cbn [files set_files app] in Hall |- *.
  assert (Hsame : forall filename,
            filename ∈ workflow_sources settings ->
            <[targz := ""]> (files e) !! filename = files e !! filename).
  { intros filename Hin. apply lookup_insert_ne. by intros <-. }
  assert (Hmembers :
            (fun filename =>
               (replace (workdir settings +:+ "/") "" filename,
                default "" (<[targz := ""]> (files e) !! filename)))
            <$> workflow_sources settings
            = archive_members settings (files e)).
  { unfold archive_members. apply list_fmap_ext.
    intros i filename Hi. rewrite Hsame; [done|].
    by eapply list_elem_of_lookup_2. }
  rewrite Hmembers in *. clear Hmembers.
  set (bytes := tar_gz os targz (archive_members settings (files e))).
  set (hash_tar := path_join (aux_path settings) _).
  intros [= <- <-]. split; [done|].
  cbn [_build_packages set_build_packages files set_files].
  split; [set_solver|]. split.
  { apply Forall_forall. intros filename Hin.
    rewrite <- (Hsame filename Hin). revert filename Hin.
    by apply Forall_forall. }
  intros Hne.
  rewrite insert_insert_eq.
  rewrite (lookup_insert_ne _ targz hash_tar) by done.
  destruct (files e !! hash_tar) as [old|] eqn:Hold;
    cbn [files set_files default from_option id].
  - rewrite lookup_delete_ne by done.
    by rewrite lookup_insert_ne by done.
  - by rewrite lookup_insert_eq.
Qed.

(** X6: the upload is skipped when a blob of the destination name exists:
    the bucket and the list of uploads stay as they were. *)
Lemma upload_skips_existing_blob targz e :
  is_Some (bucket e !! ("source/cache/" +:+ basename targz)) ->
  exists e',
    _upload_build_source_package targz e = (inl (), e') /\
    bucket e' = bucket e /\ uploads e' = uploads e.
Proof.
  intros Hblob. unfold _upload_build_source_package.
  cbv [mbind M_bind bind mret M_ret ret modify gets liftW logger_debug].
  cbn [bucket set_pipeline_package set_world world fst snd].
  rewrite bool_decide_eq_true_2 by done. by eexists.
Qed.

(** After an upload that returns, the blob exists. *)
Lemma upload_stores_blob targz e e' :
  _upload_build_source_package targz e = (inl (), e') ->
  is_Some (bucket e' !! ("source/cache/" +:+ basename targz)).
Proof.
  unfold _upload_build_source_package.
  cbv [mbind M_bind bind mret M_ret ret modify gets liftW logger_debug].
  cbn [bucket set_pipeline_package set_world world files fst snd].
  case_bool_decide as Hblob.
  - intros [= <-]. exact Hblob.
  - cbn [bucket set_pipeline_package set_world world files fst snd].
    destruct (files e !! targz); [|discriminate].
    intros [= <-]. cbn [bucket set_uploads set_bucket].
    rewrite lookup_insert_eq. by eexists.
Qed.

(** Deleting the tracked packages removes from the bucket the blobs that
    are named like the entries of [_build_packages], and no other. *)
Lemma delete_package_spec package e :
  exists w',
    delete_package package e
    = (inl (), set_bucket (delete package (bucket e)) (set_world w' e)).
Proof.
  unfold delete_package.
  cbv [mbind M_bind bind mret M_ret ret modify gets liftW logger_debug].
  case_bool_decide as Hblob.
  - by eexists.
  - exists (world e). unfold set_bucket, set_world. cbn.
    rewrite delete_id; [by rewrite executor_eta|].
    by apply eq_None_not_Some.
Qed.

Lemma delete_packages_spec packages :
  forall e, exists w',
    for_each packages delete_package e
    = (inl (),
       set_bucket (foldl (fun b package => delete package b)
                     (bucket e) packages)
         (set_world w' e)).
Proof.
  induction packages as [|package packages IH]; intros e.
  - exists (world e). unfold set_bucket, set_world. cbn.
    by rewrite executor_eta.
  - destruct (delete_package_spec package e) as [w1 H1].
    cbn [for_each foldl]. cbv [mbind M_bind bind]. rewrite H1.
    destruct (IH (set_bucket (delete package (bucket e)) (set_world w1 e)))
      as [w2 H2].
    rewrite H2. by exists w2.
Qed.

Lemma lookup_delete_all (b : gmap string string) packages name :
  foldl (fun b package => delete package b) b packages !! name
  = if decide (name ∈ packages) then None else b !! name.
Proof.
  revert b. induction packages as [|package packages IH]; intros b.
  - by rewrite decide_False by apply not_elem_of_nil.
  - cbn [foldl]. rewrite IH.
    destruct (decide (name ∈ packages)) as [Hin|Hnot].
    + rewrite decide_True; [done|]. by constructor.
    + destruct (decide (name = package)) as [->|Hne].
      * rewrite decide_True by constructor. apply lookup_delete_eq.
      * rewrite decide_False.
        -- by apply lookup_delete_ne.
        -- intros Hin. apply elem_of_cons in Hin as [?|?]; done.
Qed.

(** X7: shutdown without retention deletes from the bucket the blobs named
    like the entries of [_build_packages], and leaves every other blob. *)
Lemma shutdown_deletes_tracked_names settings e name :
  _save_storage_cache settings = false ->
  (shutdown settings e).1 = inl () /\
  bucket (shutdown settings e).2 !! name
  = if decide (name ∈ _build_packages e) then None else bucket e !! name.
Proof.
  intros Hkeep. unfold shutdown. rewrite Hkeep.
  cbv [mbind M_bind bind gets].
  destruct (delete_packages_spec (elements (_build_packages e)) e)
    as [w' Hrun].
  rewrite Hrun. split; [done|]. cbn [snd bucket set_bucket].
  rewrite lookup_delete_all.
  destruct (decide (name ∈ _build_packages e)) as [Hin|Hnot].
  - rewrite decide_True; [done|]. by apply elem_of_elements.
  - rewrite decide_False; [done|]. by rewrite elem_of_elements.
Qed.

(** X8: with retention, shutdown prints a debug line and changes nothing
    else: the bucket is as it was. *)
Lemma shutdown_with_retention settings e :
  _save_storage_cache settings = true ->
  shutdown settings e
  = (inl (),
     set_world
       (add_debug ["Requested to save workflow sources, skipping cleanup."]
          (world e)) e).
Proof. intros Hkeep. unfold shutdown. by rewrite Hkeep. Qed.

Lemma generate_returns_hash_name_witness :
  package_path
  = path_join (aux_path plain_settings)
      ("workdir-"
       +:+ sha256_hexdigest plain_platform
             (tar_gz plain_platform "/tmp/snakemake-tmp0.tar.gz"
                (archive_members plain_settings (files started_executor)))
       +:+ ".tar.gz") /\
  package_path
  ∈ _build_packages
      (_generate_build_source_package plain_settings plain_platform
         started_executor).2 /\
  Forall (fun filename => is_Some (files started_executor !! filename))
    (workflow_sources plain_settings) /\
  (package_path <> "/tmp/snakemake-tmp0.tar.gz" ->
   files (_generate_build_source_package plain_settings plain_platform
            started_executor).2 !! package_path
   = Some (default
             (tar_gz plain_platform "/tmp/snakemake-tmp0.tar.gz"
                (archive_members plain_settings (files started_executor)))
             (files started_executor !! package_path))).
Proof.
  refine (generate_returns_hash_name plain_settings plain_platform
            started_executor package_path _ _ _).
  - vm_compute. reflexivity.
  - apply (bool_decide_unpack _). vm_compute. exact I.
Defined.

Lemma upload_skips_existing_blob_witness :
  exists e',
    _upload_build_source_package package_path packaged_executor
    = (inl (), e') /\
    bucket e' = bucket packaged_executor /\
    uploads e' = uploads packaged_executor.
Proof.
  apply upload_skips_existing_blob.
  vm_compute. eexists. reflexivity.
Defined.

Lemma shutdown_deletes_tracked_names_witness :
  (shutdown plain_settings packaged_executor).1 = inl () /\
  bucket (shutdown plain_settings packaged_executor).2 !! package_blob
  = if decide (package_blob ∈ _build_packages packaged_executor)
    then None else bucket packaged_executor !! package_blob.
Proof.
  apply (shutdown_deletes_tracked_names plain_settings packaged_executor
           package_blob).
  reflexivity.
Defined.

Lemma shutdown_with_retention_witness :
  shutdown retaining_settings packaged_executor
  = (inl (),
     set_world
       (add_debug ["Requested to save workflow sources, skipping cleanup."]
          (world packaged_executor)) packaged_executor).
Proof.
  apply shutdown_with_retention. reflexivity.
Defined.

(** C7: after a start-up that built and uploaded the package, the set of
    build packages holds the local path of the archive, not the name of the
    blob; shutdown without retention looks for a blob of that local path,
    finds none, and leaves the uploaded package in the bucket, where the
    specification has it deleted. *)
Theorem shutdown_leaves_uploaded_package :
  let e1 := (init_packages plain_settings plain_platform
               started_executor).2 in
  _save_storage_cache plain_settings = false /\
  uploads e1 = ["source/cache/workdir-1832109017.tar.gz"] /\
  elements (_build_packages e1)
  = ["/home/user/workflow/.snakemake/auxiliary/workdir-1832109017.tar.gz"] /\
  bucket e1 !! "source/cache/workdir-1832109017.tar.gz"
  = Some ("Snakefile=" +:+ snakefile_bytes) /\
  (shutdown plain_settings e1).1 = inl () /\
  bucket (shutdown plain_settings e1).2
    !! "source/cache/workdir-1832109017.tar.gz"
  = Some ("Snakefile=" +:+ snakefile_bytes).
Proof. vm_compute. repeat split; reflexivity. Qed.

(** C9: with an archive that starts, as a gzip file does, with the base
    name it was opened under, two start-ups in the same unchanged working
    tree draw two temporary names, get two digests, and upload two blobs,
    where the specification has one digest and one upload. *)
Theorem same_tree_packaged_twice_uploads_twice :
  let first := init_packages plain_settings gzip_platform started_executor in
  let second := init_packages plain_settings gzip_platform first.2 in
  first.1 = inl () /\ second.1 = inl () /\
  files first.2 !! "/home/user/workflow/Snakefile" = Some snakefile_bytes /\
  files second.2 !! "/home/user/workflow/Snakefile" = Some snakefile_bytes /\
  pipeline_package first.2
  = Assigned "source/cache/workdir-1570790744.tar.gz" /\
  pipeline_package second.2
  = Assigned "source/cache/workdir-1694863991.tar.gz" /\
  uploads second.2
  = ["source/cache/workdir-1570790744.tar.gz";
     "source/cache/workdir-1694863991.tar.gz"].
Proof. vm_compute. repeat split; reflexivity. Qed.

(** * Further properties of the code *)

(** * Further properties *)

(** ** The retry wrapper: cost *)

Lemma total_sleep_backoff k timeout :
  total_sleep (backoff k timeout) = (timeout * (2 ^ Z.of_nat k - 1))%Z.
Proof.
  revert timeout. induction k as [|k IH]; intros timeout.
  - simpl. lia.
  - cbn [backoff total_sleep foldr]. fold (total_sleep (backoff k (timeout * 2))).
    rewrite IH, Nat2Z.inj_succ, Z.pow_succ_r by lia. lia.
Qed.

Lemma retry_rec_shape {A} (req : request A) n :
  forall timeout w,
    exists k, k <= n /\
      (retry_request_rec n req timeout w).2
      = after_calls (S k) (backoff k timeout) w.
Proof.
  induction n as [|n IH]; intros timeout w.
  - exists 0. split; [done|]. simpl. unfold execute.
    destruct (req (calls w)) as [r|ex]; [|destruct (is_Exception ex)];
      unfold after_calls; simpl; by rewrite app_nil_r, Nat.add_1_r.
  - cbn [retry_request_rec]. unfold execute at 1.
    destruct (req (calls w)) as [r|ex].
    { exists 0. split; [lia|]. unfold after_calls; simpl.
      by rewrite app_nil_r, Nat.add_1_r. }
    destruct (is_Exception ex).
    2:{ exists 0. split; [lia|]. unfold after_calls; simpl.
        by rewrite app_nil_r, Nat.add_1_r. }
    set (w1 := mkWorld (S (calls w)) (sleeps w ++ [timeout]) (debug w)
                 (reports w)).
    change ((time_sleep timeout ;; retry_request_rec n req (timeout * 2)%Z)
              (mkWorld (S (calls w)) (sleeps w) (debug w) (reports w)))
      with (retry_request_rec n req (timeout * 2)%Z w1).
    destruct (IH (timeout * 2)%Z w1) as (k & Hk & Hrun).
    exists (S k). split; [lia|]. rewrite Hrun.
    unfold after_calls, w1; simpl. f_equal; [lia|]. by rewrite <- app_assoc.
Qed.

(** X10: whatever the request does, the wrapper executes it at least once
    and at most [attempts + 1] times (once when [attempts] is zero or
    negative), sleeps between two executions only, for [timeout],
    [2*timeout], ..., so for [timeout * (2^k - 1)] in all after [k] retries,
    and touches neither the debug log nor the reports. *)
Theorem retry_request_cost {A} (req : request A) (timeout attempts : Z)
    (w : World) :
  exists k,
    k <= Z.to_nat attempts /\
    (_retry_request req timeout attempts w).2
    = after_calls (S k) (backoff k timeout) w /\
    total_sleep (backoff k timeout) = (timeout * (2 ^ Z.of_nat k - 1))%Z.
Proof.
  destruct (retry_rec_shape req (Z.to_nat attempts) timeout w)
    as (k & Hk & Hrun).
  exists k. split; [done|]. split; [done|]. apply total_sleep_backoff.
Qed.

(** ** The polling loop: one report for each job *)

Lemma retry_rec_wraps {A} (req : request A) n :
  (forall i ex, req i = inr ex -> is_Exception ex = true) ->
  forall timeout w ex w',
    retry_request_rec n req timeout w = (inr ex, w') ->
    exists cause, ex = WorkflowErrorOf cause.
Proof.
  intros Hreq timeout w ex w' Hrun.
  destruct (retry_rec_raises req n timeout w ex w' Hrun) as [?|Hb]; [done|].
  exfalso. revert timeout w Hrun.
  induction n as [|n IH]; intros timeout w Hrun; simpl in Hrun;
    unfold execute in Hrun;
    destruct (req (calls w)) as [r|ex0] eqn:Hreq0; try discriminate;
    rewrite (Hreq _ _ Hreq0) in Hrun.
  - injection Hrun as <- _. discriminate.
  - exact (IH _ _ Hrun).
Qed.

Lemma after_query_answered j st w :
  after_query j (Some st) w
  = (inl (),
     mkWorld (calls w) (sleeps w)
       (debug w ++ (if bool_decide (done st = Some true)
                    then concat (event_debug <$> events st) else []))
       (reports w ++ [verdict j st])).
Proof.
  unfold after_query, verdict.
  assert (Hd : bool_decide (default false (done st) = true)
               = bool_decide (done st = Some true)).
  { destruct (done st) as [[]|]; reflexivity. }
  rewrite Hd. destruct (bool_decide (done st = Some true)).
  - cbv [mbind M_bind bind]. unfold _job_was_successful.
    rewrite events_loop_spec. cbn [andb].
    by destruct (forallb event_ok (events st)).
  - unfold tell, modify. by rewrite app_nil_r.
Qed.

Lemma query_job_reports api_get j status name w :
  (forall name i ex, api_get name i = inr ex -> is_Exception ex = true) ->
  exists status' w' r,
    query_job api_get j status name w = (inl status', w') /\
    reports w' = reports w ++ [r] /\ report_about j r.
Proof.
  intros Hreq. unfold query_job.
  destruct (retry_rec_shape (api_get name) 3 2%Z w) as (k & _ & Hw).
  unfold retry, _retry_request. change (Z.to_nat 3) with 3.
  destruct (retry_request_rec 3 (api_get name) 2%Z w)
    as [[st|ex] w1] eqn:Hrun.
  - simpl in Hw. cbv [mbind M_bind bind]. rewrite after_query_answered.
    eexists _, _, _. split; [reflexivity|]. cbn [reports].
    split; [by rewrite Hw|].
    unfold report_about, verdict.
    destruct (bool_decide _); [destruct (forallb _ _)|]; eauto.
  - destruct (retry_rec_wraps _ 3 (Hreq name) _ _ _ _ Hrun)
      as [cause ->].
    simpl in Hw. eexists _, _, _. split; [reflexivity|]. cbn [reports].
    split; [by rewrite Hw|].
    right. left. by eexists.
Qed.

Lemma pollable_dec j : pollable j \/ ~ pollable j.
Proof.
  unfold pollable. destruct (jobname j) as [|name]; [right|].
  { by intros (? & ? & ? & _). }
  destruct (jobid j) as [|id]; [right|left].
  - by intros (? & ? & _ & ?).
  - by exists name, id.
Qed.

(** X11: as long as the status queries fail with [Exception]s only, the
    polling loop handles the active jobs in order up to the first job on
    which [jobname] or [jobid] cannot be read: each job before it gets
    exactly one report (success, error, or the job yielded as still
    running), whatever its query did, and at that job the loop raises
    [AttributeError] and leaves the remaining jobs unpolled.  When every
    job has both attributes, the loop returns and every job has its
    report. *)
Theorem poll_reports_readable_jobs (api_get : string -> request Status)
    (active_jobs : list SubmittedJobInfo) (w : World) :
  (forall name i ex, api_get name i = inr ex -> is_Exception ex = true) ->
  exists w' rs polled,
    reports w' = reports w ++ rs /\
    Forall2 report_about polled rs /\
    Forall pollable polled /\
    ((polled = active_jobs /\
      check_active_jobs api_get active_jobs w = (inl (), w')) \/
     (exists j rest a,
        active_jobs = polled ++ j :: rest /\ ~ pollable j /\
        check_active_jobs api_get active_jobs w
        = (inr (AttributeError a), w'))).
Proof.
  intros Hreq. unfold check_active_jobs. generalize (@None Status).
  revert w. induction active_jobs as [|j rest IH]; intros w status.
  - exists w, [], []. split; [by rewrite app_nil_r|].
    split; [constructor|]. split; [constructor|]. by left.
  - cbn [poll_loop]. cbv [mbind M_bind bind].
    destruct (pollable_dec j) as [(name & id & Hname & Hid)|Hno].
    + rewrite (check_job_readable _ _ _ name id) by done.
      destruct (query_job_reports api_get j status name
                  (add_debug ["Checking status for operation " +:+ id] w)
                  Hreq)
        as (status' & w1 & r & -> & Hrep & Habout).
      destruct (IH w1 status')
        as (w' & rs & polled & Hreps & Hall & Hpoll & Hend).
      exists w', (r :: rs), (j :: polled).
      split; [by rewrite Hreps, Hrep, <- app_assoc|].
      split; [by constructor|].
      split; [constructor; [by exists name, id|done]|].
      destruct Hend as [[-> Hrun]|(j' & rest' & a & -> & Hno & Hrun)].
      * by left.
      * right. by exists j', rest', a.
    + destruct (check_job_unreadable api_get j status w Hno) as [a ->].
      exists w, [], []. split; [by rewrite app_nil_r|].
      split; [constructor|]. split; [constructor|].
      right. by exists j, rest, a.
Qed.

Lemma poll_reports_readable_jobs_witness :
  exists w' rs polled,
    reports w' = reports fresh_world ++ rs /\
    Forall2 report_about polled rs /\
    Forall pollable polled /\
    ((polled = [lost_job; submitted_job; lost_job] /\
      check_active_jobs not_found_api [lost_job; submitted_job; lost_job]
        fresh_world = (inl (), w')) \/
     (exists j rest a,
        [lost_job; submitted_job; lost_job] = polled ++ j :: rest /\
        ~ pollable j /\
        check_active_jobs not_found_api [lost_job; submitted_job; lost_job]
          fresh_world = (inr (AttributeError a), w'))).
Proof.
  apply poll_reports_readable_jobs.
  intros name i ex [= <-]. reflexivity.
Defined.

(** X12: for a job on which [jobname] and [jobid] have been set, a status
    query that is answered at once is not retried; the job is reported as
    successful when the status is done and no event fails, as failed when
    it is done and some event fails, and is yielded when the status is not
    done (or has no [done] key); the loop goes on with the next job. *)
Theorem poll_answered_job (api_get : string -> request Status)
    (j : SubmittedJobInfo) (rest : list SubmittedJobInfo)
    (status : option Status) (w : World) (st : Status) (name id : string) :
  jobname j = Assigned name ->
  jobid j = Assigned id ->
  api_get name (calls w) = inl st ->
  poll_loop api_get (j :: rest) status w =
    poll_loop api_get rest (Some st)
      (mkWorld (S (calls w)) (sleeps w)
         (debug w ++ ["Checking status for operation " +:+ id]
            ++ (if bool_decide (done st = Some true)
                then concat (event_debug <$> events st) else []))
         (reports w ++ [verdict j st])).
Proof.
  intros Hname Hid Hreq. cbn [poll_loop]. cbv [mbind M_bind bind].
  rewrite (check_job_readable _ _ _ name id) by done. unfold query_job.
  set (w0 := add_debug _ w).
  rewrite (retry_answers _ w0 st) by exact Hreq.
  cbv [mbind M_bind bind]. rewrite after_query_answered.
  cbv [mret M_ret ret]. do 2 f_equal; unfold after_calls, w0; simpl;
    rewrite ?app_nil_r, <- ?app_assoc; first [lia|done].
Qed.

(** ** The catalog resolver: edges *)

(** X13: when no zone of the project matches the regions, the resolver does
    not return an empty catalog: it raises [UnboundLocalError] for the loop
    variable [zone], after the single listing of the zones. *)
Theorem catalog_without_zone regions cli w zones w1 :
  retry (zones_list cli) w = (inl zones, w1) ->
  filter (fun z => zone_in_regions regions z) zones = [] ->
  get_available_machine_types regions cli w
  = (inr (UnboundLocalError "zone"), w1).
Proof.
  intros Hzones Hfilter. unfold get_available_machine_types.
  cbv [mbind M_bind bind]. by rewrite Hzones, Hfilter.
Qed.

Lemma elem_of_dict_set {V} (k k' : string) (v v' : V) (d : dict V) :
  (k', v') ∈ dict_set k v d -> (k', v') = (k, v) \/ (k', v') ∈ d.
Proof.
  induction d as [|[k0 v0] d IH]; cbn [dict_set].
  - intros Hin. apply list_elem_of_singleton in Hin. by left.
  - destruct (String.eqb k k0).
    + intros Hin. apply elem_of_cons in Hin as [?|?]; [by left|].
      right. by constructor.
    + intros Hin. apply elem_of_cons in Hin as [->|Hin].
      * right. constructor.
      * destruct (IH Hin) as [?|?]; [by left|]. right. by constructor.
Qed.

Lemma elem_of_by_name types name shape :
  (name, shape) ∈ by_name types -> shape ∈ types /\ mt_name shape = name.
Proof.
  unfold by_name.
  cut (forall acc : dict MachineType,
         (name, shape) ∈ foldl (fun d mt => dict_set (mt_name mt) mt d)
                            acc types ->
         (name, shape) ∈ acc \/ (shape ∈ types /\ mt_name shape = name)).
  { intros H Hin. destruct (H [] Hin) as [Hnil|?]; [|done].
    by apply elem_of_nil in Hnil. }
  induction types as [|mt types IH]; intros acc Hin; [by left|].
  cbn [foldl] in Hin. destruct (IH _ Hin) as [Hset|[Hin' Hname]].
  - apply elem_of_dict_set in Hset as [[= -> ->]|?]; [|by left].
    right. split; [constructor|done].
  - right. split; [by constructor|done].
Qed.

Lemma elem_of_dict_del {V} (k k' : string) (v' : V) (d : dict V) :
  (k', v') ∈ dict_del k d -> (k', v') ∈ d.
Proof.
  induction d as [|[k0 v0] d IH]; cbn [dict_del]; [done|].
  destruct (String.eqb k k0).
  - intros Hin. by constructor.
  - intros Hin. apply elem_of_cons in Hin as [->|Hin]; [constructor|].
    constructor. by apply IH.
Qed.

Lemma elem_of_dict_del_all {V} (ks : list string) (k' : string) (v' : V)
    (d : dict V) :
  (k', v') ∈ foldr dict_del d ks -> (k', v') ∈ d.
Proof.
  induction ks as [|k ks IH]; [done|]. cbn [foldr].
  intros Hin. by apply IH, (elem_of_dict_del k).
Qed.

(** X14: the shapes of the returned catalog are those that the last zone
    matching the regions lists (so the zone recorded in a shape is that
    zone's), and each is filed under its own name. *)
Theorem catalog_entries_of_last_zone regions cli all_zones shapes w
    catalog w' zone :
  serves cli all_zones shapes ->
  NoDup all_zones ->
  last (filter (fun z => zone_in_regions regions z) all_zones) = Some zone ->
  get_available_machine_types regions cli w = (inl catalog, w') ->
  forall name shape,
    (name, shape) ∈ catalog -> shape ∈ shapes zone /\ mt_name shape = name.
Proof.
  intros Hserves Hnd Hlast.
  set (zones := filter (fun z => zone_in_regions regions z) all_zones) in *.
  assert (Hndz : NoDup zones) by by apply NoDup_filter.
  pose proof Hlast as Hlast'.
  apply last_Some in Hlast' as [init Hzones].
  set (f := fun zone => (zone, shapes zone)).
  assert (Hkeys : forall l, dict_keys (f <$> l) = l).
  { intros l. unfold dict_keys. rewrite <- list_fmap_compose.
    apply list_fmap_id. }
  unfold get_available_machine_types. cbv [mbind M_bind bind].
  rewrite (retry_answers _ w all_zones) by apply Hserves.
  fold zones. rewrite (fetch_zones_serves cli all_zones shapes zones
                         Hserves [] _).
  2:{ simpl. exact Hndz. }
  rewrite Hlast, app_nil_l. fold f.
  rewrite (dict_get_elem zone (shapes zone)).
  2:{ by rewrite Hkeys. }
  2:{ apply (list_elem_of_fmap_2 f). rewrite Hzones.
      apply elem_of_app. right. constructor. }
  intros [= <- _] name shape Hin.
  by apply elem_of_by_name, (elem_of_dict_del_all _ _ _ _ Hin).
Qed.

Lemma catalog_entries_of_last_zone_witness :
  n1_standard_1 ∈ zone_shapes /\ mt_name n1_standard_1 = "n1-standard-1".
Proof.
  refine (catalog_entries_of_last_zone ["us-east1"] two_zone_cli
            ["us-east1-b"; "us-east1-c"; "europe-west1-b"]
            (fun _ => zone_shapes) fresh_world
            [("n1-standard-1", n1_standard_1)] _ "us-east1-c" _ _ _ _
            "n1-standard-1" n1_standard_1 _).
  - split; reflexivity.
  - apply (bool_decide_unpack _). vm_compute. exact I.
  - reflexivity.
  - vm_compute. reflexivity.
  - constructor.
Defined.

Lemma catalog_without_zone_witness :
  get_available_machine_types ["asia-east1"] two_zone_cli fresh_world
  = (inr (UnboundLocalError "zone"), mkWorld 1 [] [] []).
Proof.
  apply (catalog_without_zone ["asia-east1"] two_zone_cli fresh_world
           ["us-east1-b"; "us-east1-c"; "europe-west1-b"]).
  - reflexivity.
  - reflexivity.
Defined.

Lemma poll_answered_job_witness :
  poll_loop running_api [lost_job] None fresh_world =
    poll_loop running_api [] (Some running_status)
      (mkWorld 1 [] ["Checking status for operation 42"] [Yield lost_job]).
Proof.
  apply (poll_answered_job running_api lost_job [] None fresh_world
           running_status "projects/p/locations/l/operations/42" "42");
    reflexivity.
Defined.

(** ** The planner: prefix, missing resources, groups *)

Lemma prefix_pass_filter prefix (machine_types : dict MachineType) :
  NoDup (dict_keys machine_types) ->
  prefix_pass prefix machine_types
  = filter (fun item => startswith item.1 prefix = true) machine_types.
Proof.
  intros Hnd.
  exact (copy_loop_filter (fun item => startswith item.1 prefix)
           machine_types [] Hnd).
Qed.

(** X15: with a machine type prefix set, the selection returns a shape of
    the catalog that meets the request and whose name starts with the
    prefix whenever there is one; when there is none it raises the error
    that the prefix is too strict, whatever else the catalog holds. *)
Theorem select_machine_type_with_prefix (prefix : string) (cores mem : Z)
    (catalog : dict MachineType) :
  NoDup (dict_keys catalog) ->
  prefix <> "" ->
  ((exists name shape,
      (name, shape) ∈ catalog /\ adequate cores mem shape /\
      startswith name prefix = true) ->
   exists name shape,
     select_machine_type (Some prefix) cores mem catalog = inl (name, shape) /\
     (name, shape) ∈ catalog /\ adequate cores mem shape /\
     startswith name prefix = true) /\
  ((forall name shape,
      (name, shape) ∈ catalog -> adequate cores mem shape ->
      startswith name prefix = false) ->
   select_machine_type (Some prefix) cores mem catalog
   = inr (WorkflowError
            ("Machine prefix " +:+ prefix
             +:+ " is too strict, or the resources cannot "
             +:+ " be satisfied, so there are no options "
             +:+ "available."))).
Proof.
  intros Hnd Hprefix.
  assert (Htruthy : truthyS (Some prefix) = true).
  { simpl. by destruct (String.eqb_spec prefix ""). }
  pose proof (first_pass_keepers cores mem catalog Hnd) as Hkeep.
  pose proof (NoDup_keys_filter
                (fun item => adequateb cores mem item = true) catalog Hnd)
    as Hnd1.
  unfold select_machine_type.
  destruct (first_pass cores mem catalog) as [[keepers max_cpu] max_mem].
  simpl in Hkeep. rewrite Htruthy. cbn [default from_option id].
  rewrite <- Hkeep in Hnd1. rewrite (prefix_pass_filter _ _ Hnd1).
  pose proof (NoDup_keys_filter
                (fun item => startswith item.1 prefix = true) keepers Hnd1)
    as Hnd2.
  set (chosen := filter (fun item => startswith item.1 prefix = true) keepers)
    in *.
  assert (Hchosen : forall name shape,
            (name, shape) ∈ chosen <->
            (name, shape) ∈ catalog /\ adequate cores mem shape /\
            startswith name prefix = true).
  { intros name shape. unfold chosen.
    rewrite list_elem_of_filter, Hkeep, list_elem_of_filter, adequateb_spec.
    simpl. tauto. }
  split.
  - intros (name & shape & Hin). apply Hchosen in Hin.
    destruct chosen as [|first rest]; [by apply elem_of_nil in Hin|].
    destruct (find_smallest_minimal first rest Hnd2)
      as (selected & Hget & Hsel & _).
    rewrite Hget. eexists _, selected. split; [done|]. by apply Hchosen.
  - intros Hnone. destruct chosen as [|[name shape] rest]; [done|].
    assert (Hin : (name, shape) ∈ (name, shape) :: rest) by constructor.
    apply Hchosen in Hin as (Hin & Hok & Hstart).
    by rewrite (Hnone name shape Hin Hok) in Hstart.
Qed.

Lemma select_machine_type_with_prefix_witness :
  exists name shape,
    select_machine_type (Some "B") 2 4096 catalog_AB = inl (name, shape) /\
    (name, shape) ∈ catalog_AB /\ adequate 2 4096 shape /\
    startswith name "B" = true.
Proof.
  refine (proj1 (select_machine_type_with_prefix "B" 2 4096 catalog_AB
                   _ _) _).
  - apply (bool_decide_unpack _). vm_compute. exact I.
  - discriminate.
  - exists "B", shape_B. split.
    + unfold catalog_AB. apply elem_of_cons. right. constructor.
    + split; [|reflexivity]. unfold adequate, shape_B. simpl. lia.
Defined.

(** X16: a job without [mem_mb], or without [disk_mb], is refused with a
    [WorkflowError] before anything happens: no request is made and no
    attribute of the executor is written. *)
Theorem plan_missing_resource settings cli job e :
  mem_mb (resources job) = None \/ disk_mb (resources job) = None ->
  exists msg,
    _generate_job_resources settings cli job e = (inr (WorkflowError msg), e).
Proof.
  intros Hmissing. unfold _generate_job_resources.
  cbv [mbind M_bind bind mret M_ret ret raise].
  destruct (mem_mb (resources job)) as [mem|]; [|by eexists].
  destruct Hmissing as [?|Hdisk]; [done|]. rewrite Hdisk. by eexists.
Qed.

Lemma plan_missing_resource_witness :
  exists msg,
    _generate_job_resources plain_settings gpu_cli
      (mkJobRequest (mkResources (Some 2%Z) (Some 8192%Z) None
                       None None None None) false "align" [])
      fresh_executor
    = (inr (WorkflowError msg), fresh_executor).
Proof.
  apply plan_missing_resource. right. reflexivity.
Defined.

(** X17: for a group job without GPUs whose shape is found (and a disk
    below [2^53] MB), the plan of a group with no rule is returned and is
    preemptible, whether or not [self.preemptible_rules] exists; for a
    group with rules the plan is an [AttributeError] as [__init__] leaves
    the executor; when the attribute has been assigned, the plan fails
    with a [WorkflowError] if some rules of the group are preemptible and
    some are not, and otherwise succeeds, preemptible when all rules are
    and not preemptible when none is. *)
Theorem plan_group_preemptible settings cli job e mem disk catalog w1
    name shape :
  truthyZ (requested_gpus job) = false ->
  is_group job = true ->
  mem_mb (resources job) = Some mem ->
  disk_mb (resources job) = Some disk ->
  (Z.abs disk < 2 ^ 53)%Z ->
  get_available_machine_types (regions settings) cli (world e)
  = (inl catalog, w1) ->
  select_machine_type (machine_type (resources job))
    (default 1%Z (_cores (resources job))) mem catalog = inl (name, shape) ->
  (rules job = [] ->
   exists plan,
     (_generate_job_resources settings cli job e).1 = inl plan /\
     preemptible (virtualMachine plan) = true) /\
  (rules job <> [] ->
   preemptible_rules settings = Unset ->
   (_generate_job_resources settings cli job e).1
   = inr (AttributeError "preemptible_rules")) /\
  (forall is_preemptible,
     preemptible_rules settings = Assigned is_preemptible ->
     ((exists r1 r2, r1 ∈ rules job /\ r2 ∈ rules job /\
                     is_preemptible r1 = true /\
                     is_preemptible r2 = false) ->
      exists msg,
        (_generate_job_resources settings cli job e).1
        = inr (WorkflowError msg)) /\
     ((forall r, r ∈ rules job -> is_preemptible r = true) ->
      exists plan,
        (_generate_job_resources settings cli job e).1 = inl plan /\
        preemptible (virtualMachine plan) = true) /\
     ((forall r, r ∈ rules job -> is_preemptible r = false) ->
      rules job <> [] ->
      exists plan,
        (_generate_job_resources settings cli job e).1 = inl plan /\
        preemptible (virtualMachine plan) = false)).
Proof.
  intros Hgpu Hgroup Hmem Hdisk Hrange Hfetch Hselect.
  plan_to_preemptible job Hgpu Hmem Hdisk Hrange Hfetch Hselect.
  rewrite Hgroup. split; [|split].
  - intros ->. by eexists.
  - intros Hne ->. by destruct (rules job).
  - intros is_preemptible ->.
    split; [|split].
    + intros (r1 & r2 & Hr1 & Hr2 & Hp1 & Hp2).
      assert (Hall : forallb is_preemptible (rules job) = false).
      { apply not_true_is_false. intros Hall.
        rewrite forallb_forall in Hall.
        apply list_elem_of_In in Hr2. rewrite (Hall r2 Hr2) in Hp2.
        discriminate. }
      assert (Hany : existsb is_preemptible (rules job) = true).
      { apply existsb_exists. exists r1. split; [|done].
        by apply list_elem_of_In. }
      destruct (rules job) as [|r rs]; [by apply elem_of_nil in Hr1|].
      rewrite Hall, Hany. by eexists.
    + intros Hall.
      assert (Hb : forallb is_preemptible (rules job) = true).
      { apply forallb_forall. intros r Hr. by apply Hall, list_elem_of_In. }
      destruct (rules job) as [|r rs]; [by eexists|].
      rewrite Hb. by eexists.
    + intros Hnone Hne.
      assert (Hany : existsb is_preemptible (rules job) = false).
      { apply not_true_is_false. intros Hany.
        apply existsb_exists in Hany as (r & Hr & Hp).
        apply list_elem_of_In in Hr. rewrite (Hnone r Hr) in Hp.
        discriminate. }
      assert (Hb : forallb is_preemptible (rules job) = false).
      { destruct (rules job) as [|r rs]; [done|]. simpl.
        rewrite (Hnone r); [done|constructor]. }
      destruct (rules job) as [|r rs]; [done|].
      rewrite Hb, Hany. by eexists.
Qed.

Lemma plan_group_preemptible_witness :
  (_generate_job_resources initial_settings gpu_cli group_job
     fresh_executor).1
  = inr (AttributeError "preemptible_rules") /\
  exists msg,
    (_generate_job_resources mixed_settings gpu_cli group_job
       fresh_executor).1
    = inr (WorkflowError msg).
Proof.
  split.
  - refine (proj1 (proj2 (plan_group_preemptible initial_settings gpu_cli
                            group_job fresh_executor 8192 1000
                            [("n1-standard-4", n1_standard_4)] _
                            "n1-standard-4" n1_standard_4 _ _ _ _ _ _ _))
              _ _); try (vm_compute; reflexivity). discriminate.
  - refine (proj1 (proj2 (proj2 (plan_group_preemptible mixed_settings
                                   gpu_cli group_job fresh_executor 8192 1000
                                   [("n1-standard-4", n1_standard_4)] _
                                   "n1-standard-4" n1_standard_4
                                   _ _ _ _ _ _ _))
                     (fun r => String.eqb r "a") _) _); try (vm_compute; reflexivity).
    exists "a", "b". split; [constructor|].
    split; [apply elem_of_cons; right; constructor|]. split; reflexivity.
Defined.

(** ** The accelerator *)

Lemma accelerator_keepers_filter count model items :
  forall acc,
    NoDup (dict_keys acc ++ (acc_name <$> items)) ->
    foldl (fun keepers accelerator =>
             if (truthyS model &&
                 negb (String.eqb (acc_name accelerator) (default "" model)))
                || endswith (acc_name accelerator) "vws"
             then keepers
             else if (count <=? maximumCardsPerInstance accelerator)%Z
             then dict_set (acc_name accelerator) accelerator keepers
             else keepers)
          acc items
    = acc ++ ((fun a => (acc_name a, a))
                <$> filter (fun a => qualifies count model a = true) items).
Proof.
  induction items as [|a items IH]; intros acc Hnd.
  - by rewrite app_nil_r.
  - cbn [foldl]. rewrite filter_cons.
    rewrite fmap_cons in Hnd.
    assert (Hrest : NoDup (dict_keys acc ++ (acc_name <$> items))).
    { apply NoDup_app in Hnd as (Ha & Hd & Hk). apply NoDup_app.
      split; [done|]. split.
      - intros x Hx Hx'. apply (Hd x Hx). by constructor.
      - by apply NoDup_cons in Hk as [_ ?]. }
    match goal with |- foldl _ ?step _ = _ =>
      assert (Hstep : step = if qualifies count model a
                             then dict_set (acc_name a) a acc else acc)
    end.
    { unfold qualifies.
      by destruct ((truthyS model && _) || endswith (acc_name a) "vws"),
                  (count <=? maximumCardsPerInstance a)%Z. }
    rewrite Hstep. destruct (qualifies count model a).
    + rewrite decide_True by done. rewrite dict_set_fresh.
      * rewrite IH; [by rewrite fmap_cons, <- app_assoc|].
        rewrite dict_keys_app, <- app_assoc. exact Hnd.
      * apply NoDup_app in Hnd as (_ & Hd & _). intros Hin.
        apply (Hd _ Hin). constructor.
    + rewrite decide_False by done. by apply IH.
Qed.

Lemma least_step best seen name a :
  least_of best seen ->
  least_of (if (maximumCardsPerInstance a <? best.2)%Z
            then (name, maximumCardsPerInstance a) else best)
           (seen ++ [(name, a)]).
Proof.
  destruct best as [smallest max_gpu].
  intros (cur & Hin & Hm & Hmin). simpl in Hin, Hm. subst. cbn [snd].
  destruct (Z.ltb_spec (maximumCardsPerInstance a)
              (maximumCardsPerInstance cur)) as [Hlt|Hge].
  - exists a. simpl. split; [apply elem_of_app; right; constructor|].
    split; [done|]. intros name' b Hin'.
    apply elem_of_app in Hin' as [Hin'|Hin'].
    + specialize (Hmin name' b Hin'). lia.
    + apply list_elem_of_singleton in Hin' as [= _ ->]. lia.
  - exists cur. simpl. split; [apply elem_of_app; by left|].
    split; [done|]. intros name' b Hin'.
    apply elem_of_app in Hin' as [Hin'|Hin'].
    + by apply (Hmin name' b).
    + apply list_elem_of_singleton in Hin' as [= _ ->]. lia.
Qed.

Lemma least_loop items :
  forall best seen,
    least_of best seen ->
    least_of (foldl (fun '(smallest, max_gpu) '(name, accelerator) =>
                       if (maximumCardsPerInstance accelerator <? max_gpu)%Z
                       then (name, maximumCardsPerInstance accelerator)
                       else (smallest, max_gpu))
                best items)
             (seen ++ items).
Proof.
  induction items as [|[name a] items IH]; intros [smallest max_gpu] seen Hinv.
  - by rewrite app_nil_r.
  - cbn [foldl]. rewrite (cons_middle (name, a) seen items), app_assoc.
    apply IH. exact (least_step (smallest, max_gpu) seen name a Hinv).
Qed.

Lemma smallest_accelerator_least keepers :
  NoDup (dict_keys keepers) ->
  keepers <> [] ->
  exists name a,
    smallest_accelerator keepers = Some a /\ (name, a) ∈ keepers /\
    forall name' b, (name', b) ∈ keepers ->
      (maximumCardsPerInstance a <= maximumCardsPerInstance b)%Z.
Proof.
  intros Hnd Hne. destruct keepers as [|[first a0] rest]; [done|].
  unfold smallest_accelerator.
  destruct (least_loop ((first, a0) :: rest)
              (first, maximumCardsPerInstance a0) [(first, a0)])
    as (a & Hin & _ & Hmin).
  { exists a0. simpl. split; [constructor|]. split; [done|].
    intros name' b Hin'. apply list_elem_of_singleton in Hin' as [= _ ->].
    lia. }
  destruct (foldl _ (first, maximumCardsPerInstance a0) ((first, a0) :: rest))
    as [smallest max_gpu].
  simpl in Hin.
  assert (Hin' : (smallest, a) ∈ (first, a0) :: rest).
  { apply elem_of_cons in Hin as [Hin|Hin]; [rewrite Hin; constructor|done]. }
  exists smallest, a. split; [by apply dict_get_elem|]. split; [done|].
  intros name' b Hb. apply (Hmin name' b). by constructor.
Qed.

(** X18: for a request of [count] GPUs, when the zone lists an accelerator
    that is no virtual workstation, has the requested model if one is
    given, and allows at least [count] cards, [_get_accelerator] returns
    such an accelerator with the least [maximumCardsPerInstance] among
    them; when the zone lists none, it raises a [WorkflowError]. *)
Theorem get_accelerator_least cli (count : Z) zone model w items w1 :
  count <> 0%Z ->
  retry (acceleratorTypes_list cli zone) w = (inl items, w1) ->
  NoDup (acc_name <$> items) ->
  ((exists a, a ∈ items /\ qualifies count model a = true) ->
   exists a,
     _get_accelerator cli (Some count) zone model w = (inl (Some a), w1) /\
     a ∈ items /\ qualifies count model a = true /\
     forall b, b ∈ items -> qualifies count model b = true ->
       (maximumCardsPerInstance a <= maximumCardsPerInstance b)%Z) /\
  ((forall a, a ∈ items -> qualifies count model a = false) ->
   exists msg,
     _get_accelerator cli (Some count) zone model w
     = (inr (WorkflowError msg), w1)).
Proof.
  intros Hcount Hfetch Hnd. unfold _get_accelerator, truthyZ.
  destruct (Z.eqb_spec count 0) as [?|_]; [done|].
  rewrite bool_decide_eq_false_2 by congruence.
  cbn [negb orb]. cbv [mbind M_bind bind]. rewrite Hfetch.
  cbn [default from_option id]. unfold accelerator_keepers.
  rewrite (accelerator_keepers_filter count model items []) by done.
  rewrite app_nil_l.
  set (chosen := filter (fun a => qualifies count model a = true) items).
  set (f := fun a : Accelerator => (acc_name a, a)).
  assert (Hkeys : NoDup (dict_keys (f <$> chosen))).
  { unfold dict_keys. rewrite <- list_fmap_compose.
    apply (sublist_NoDup _ (acc_name <$> items)); [done|].
    apply fmap_sublist, sublist_filter. }
  split.
  - intros (a0 & Hin0 & Hq0).
    assert (Hne : f <$> chosen <> []).
    { intros Hnil. apply fmap_nil_inv in Hnil.
      assert (Hc : a0 ∈ chosen) by by apply list_elem_of_filter.
      rewrite Hnil in Hc. by apply elem_of_nil in Hc. }
    destruct (smallest_accelerator_least (f <$> chosen) Hkeys Hne)
      as (name & a & Hsel & Hin & Hmin).
    rewrite Hsel. exists a. split; [done|].
    apply list_elem_of_fmap in Hin as (a' & [= _ ->] & Ha').
    apply list_elem_of_filter in Ha' as [Hq Ha'].
    split; [done|]. split; [done|]. intros b Hb Hqb.
    apply (Hmin (acc_name b) b), (list_elem_of_fmap_2 f).
    by apply list_elem_of_filter.
  - intros Hnone.
    assert (Hnil : chosen = []).
    { destruct chosen as [|a rest] eqn:Hc; [done|].
      assert (Ha : a ∈ chosen) by (rewrite Hc; constructor).
      apply list_elem_of_filter in Ha as [Hq Ha].
      by rewrite (Hnone a Ha) in Hq. }
    rewrite Hnil. simpl. destruct (truthyS model); by eexists.
Qed.

Lemma get_accelerator_least_witness :
  exists a,
    _get_accelerator accelerator_cli (Some 2%Z) "us-central1-a" None
      fresh_world
    = (inl (Some a), mkWorld 1 [] [] []) /\
    a ∈ [t4; t4_vws; p100] /\ qualifies 2 None a = true /\
    forall b, b ∈ [t4; t4_vws; p100] -> qualifies 2 None b = true ->
      (maximumCardsPerInstance a <= maximumCardsPerInstance b)%Z.
Proof.
  refine (proj1 (get_accelerator_least accelerator_cli 2 "us-central1-a"
                   None fresh_world [t4; t4_vws; p100] _ _ _ _) _).
  - discriminate.
  - reflexivity.
  - apply (bool_decide_unpack _). vm_compute. exact I.
  - exists p100. split; [|reflexivity].
    apply elem_of_cons. right. apply elem_of_cons. right. constructor.
Defined.

Example accelerator_of_example :
  (_get_accelerator accelerator_cli (Some 2%Z) "us-central1-a" None
     fresh_world).1 = inl (Some p100).
Proof. reflexivity. Qed.

(** ** The source package cache: composition and frame *)

(** X19: shutdown can be run again: a second shutdown returns normally and
    leaves the bucket as the first one left it.  The set of build packages
    is never emptied. *)
Theorem shutdown_twice settings e :
  exists e1 e2,
    shutdown settings e = (inl (), e1) /\
    shutdown settings e1 = (inl (), e2) /\
    bucket e2 = bucket e1 /\
    _build_packages e2 = _build_packages e.
Proof.
  unfold shutdown. destruct (_save_storage_cache settings).
  - eexists _, _. split; [reflexivity|]. split; [reflexivity|]. done.
  - cbv [mbind M_bind bind gets].
    destruct (delete_packages_spec (elements (_build_packages e)) e)
      as [w1 H1].
    rewrite H1.
    set (e1 := set_bucket _ (set_world w1 e)).
    destruct (delete_packages_spec (elements (_build_packages e)) e1)
      as [w2 H2].
    exists e1, (set_bucket
                  (foldl (fun b package => delete package b) (bucket e1)
                     (elements (_build_packages e)))
                  (set_world w2 e1)).
    split; [reflexivity|]. split; [exact H2|]. split; [|done].
    cbn [bucket set_bucket set_world e1]. apply map_eq. intros name.
    unfold e1. cbn [bucket set_bucket set_world].
    rewrite !lookup_delete_all.
    by destruct (decide (name ∈ elements (_build_packages e))).
Qed.

(** X20: after an upload that returned, uploading the same archive again
    transfers nothing: the bucket and the list of uploads stay as the first
    upload left them. *)
Theorem upload_twice targz e e1 :
  _upload_build_source_package targz e = (inl (), e1) ->
  exists e2,
    _upload_build_source_package targz e1 = (inl (), e2) /\
    bucket e2 = bucket e1 /\ uploads e2 = uploads e1.
Proof.
  intros Hfirst. pose proof (upload_stores_blob targz e e1 Hfirst) as Hblob.
  unfold _upload_build_source_package.
  cbv [mbind M_bind bind mret M_ret ret modify gets liftW logger_debug].
  cbn [bucket set_pipeline_package set_world world fst snd].
  rewrite bool_decide_eq_true_2 by done. by eexists.
Qed.

Lemma upload_twice_witness :
  exists e2,
    _upload_build_source_package package_path packaged_executor
    = (inl (), e2) /\
    bucket e2 = bucket packaged_executor /\
    uploads e2 = uploads packaged_executor.
Proof.
  refine (upload_twice package_path
            (_generate_build_source_package plain_settings plain_platform
               (set_build_packages ∅ started_executor)).2
            packaged_executor _).
  vm_compute. reflexivity.
Defined.

(** X21: a packaging that returns has drawn one temporary name, has removed
    the temporary archive, has an archive at the path it returns, and has
    touched no other local file, nor the bucket, nor the uploads (provided
    the temporary path is not the path it returns). *)
Theorem generate_moves_archive settings os e id e' :
  _generate_build_source_package settings os e = (inl id, e') ->
  let targz := path_join (gettempdir os)
                 ("snakemake-" +:+ candidate_name os (candidates e)
                  +:+ ".tar.gz") in
  targz <> id ->
  candidates e' = S (candidates e) /\
  files e' !! targz = None /\
  is_Some (files e' !! id) /\
  (forall path, path <> targz -> path <> id ->
                files e' !! path = files e !! path) /\
  bucket e' = bucket e /\ uploads e' = uploads e.
Proof.
  intros Hrun targz Hne. revert Hrun.
  unfold _generate_build_source_package.
  cbv [mbind M_bind bind mret M_ret ret modify gets].
  rewrite check_sources_spec.
  destruct (List.find _ _); [discriminate|].
  cbn [candidates set_candidates files set_files].
  match goal with |- context [add_sources ?s ?l ?m ?x] =>
    pose proof (add_sources_state s l m x) as Hst;
    destruct (add_sources s l m x) as [[members|ex] e1] end; [|discriminate].
  simpl in Hst. subst e1.
  cbn [candidates set_candidates files set_files].
  fold targz. set (bytes := tar_gz os targz members).
  intros [= Hid <-]. rewrite Hid.
  rewrite lookup_insert_ne by done. rewrite lookup_insert_ne by done.
  destruct (files e !! id) as [old|] eqn:Hold;
    cbn [candidates set_candidates files set_files set_build_packages
         bucket uploads].
  - split; [done|]. split; [apply lookup_delete_eq|].
    split; [rewrite lookup_delete_ne, !lookup_insert_ne by done;
            rewrite Hold; by eexists|].
    split; [|done]. intros path Ht Hi.
    by rewrite lookup_delete_ne, !lookup_insert_ne by done.
  - split; [done|].
    split; [rewrite lookup_insert_ne by done; apply lookup_delete_eq|].
    split; [rewrite lookup_insert_eq; by eexists|].
    split; [|done]. intros path Ht Hi.
    by rewrite lookup_insert_ne, lookup_delete_ne, !lookup_insert_ne by done.
Qed.

Lemma generate_moves_archive_witness :
  let e' := (_generate_build_source_package plain_settings plain_platform
               started_executor).2 in
  candidates e' = 1 /\
  files e' !! "/tmp/snakemake-tmp0.tar.gz" = None /\
  is_Some (files e' !! package_path) /\
  (forall path, path <> "/tmp/snakemake-tmp0.tar.gz" ->
                path <> package_path ->
                files e' !! path = files started_executor !! path) /\
  bucket e' = bucket started_executor /\
  uploads e' = uploads started_executor.
Proof.
  refine (generate_moves_archive plain_settings plain_platform
            started_executor package_path _ _ _).
  - vm_compute. reflexivity.
  - vm_compute. discriminate.
Defined.

(** ** [_set_location] *)

Lemma locations_by_id_NoDup listed :
  NoDup listed.*1 -> locations_by_id listed = listed.
Proof.
  unfold locations_by_id.
  cut (forall acc : dict string,
         NoDup (acc ++ listed).*1 ->
         foldl (fun d x => dict_set x.1 x.2 d) acc listed = acc ++ listed).
  { intros H Hnd. by apply (H []). }
  induction listed as [|[id name] listed IH]; intros acc Hnd; simpl.
  - by rewrite app_nil_r.
  - rewrite dict_set_fresh.
    + rewrite IH; rewrite <- app_assoc; done.
    + rewrite fmap_app in Hnd. apply NoDup_app in Hnd as (_ & Hnd & _).
      intros Hin. apply (Hnd id Hin). simpl. by left.
Qed.

Lemma elem_of_locations_by_id listed id name :
  (id, name) ∈ locations_by_id listed -> (id, name) ∈ listed.
Proof.
  unfold locations_by_id.
  cut (forall acc : dict string,
         (id, name) ∈ foldl (fun d x => dict_set x.1 x.2 d) acc listed ->
         (id, name) ∈ acc \/ (id, name) ∈ listed).
  { intros H Hin. destruct (H [] Hin) as [Hnil|?]; [|done].
    by apply elem_of_nil in Hnil. }
  induction listed as [|[id' name'] listed IH]; intros acc Hin; simpl in *.
  - by left.
  - destruct (IH _ Hin) as [Hacc|?]; [|right; by right].
    apply elem_of_dict_set in Hacc as [[= -> ->]|?]; [right; by left|by left].
Qed.

Lemma dict_get_Some_elem {V} (k : string) (v : V) (d : dict V) :
  dict_get k d = Some v -> (k, v) ∈ d.
Proof.
  induction d as [|[k' v'] d IH]; simpl; [done|].
  destruct (String.eqb_spec k k') as [->|_].
  - intros [= ->]. by left.
  - intros H. right. by apply IH.
Qed.

Lemma first_listed_elem regions (locations : dict string) name :
  first_listed regions locations = Some name ->
  exists region, region ∈ regions /\ (region, name) ∈ locations.
Proof.
  induction regions as [|region regions IH]; simpl; [done|].
  destruct (dict_get region locations) as [name'|] eqn:Hget.
  - intros [= ->]. exists region. split; [by left|].
    by apply dict_get_Some_elem.
  - intros H. destruct (IH H) as (r & ? & ?). exists r. split; [by right|done].
Qed.

Lemma find_elem {A} (f : A -> bool) (l : list A) (x : A) :
  List.find f l = Some x -> x ∈ l /\ f x = true.
Proof.
  induction l as [|y l IH]; simpl; [done|].
  destruct (f y) eqn:Hf.
  - intros [= ->]. split; [by left|done].
  - intros H. destruct (IH H). split; [by right|done].
Qed.

(** X22: Whatever the regions, the wanted location and the answer of the
    service, [_set_location] executes the listing once and never sleeps
    (the request does not go through [_retry_request]); an error of the
    listing is raised as it is; and a location that is returned is the name
    of an entry of the listing. *)
Theorem set_location_lists_once regions locations_list search location w :
  let r := _set_location regions locations_list search location w in
  calls r.2 = S (calls w) /\ sleeps r.2 = sleeps w /\
  (forall ex, locations_list (calls w) = inr ex -> r.1 = inr ex) /\
  (forall name, r.1 = inl name ->
     exists listed id,
       locations_list (calls w) = inl listed /\ (id, name) ∈ listed).
Proof.
  unfold _set_location, execute.
  cbv [mbind M_bind bind mret M_ret ret raise logger_debug modify].
  destruct (locations_list (calls w)) as [listed|ex].
  2:{ simpl. split_and!; try done. by intros ? [= ->]. }
  pose proof (elem_of_locations_by_id listed) as Hsub.
  revert Hsub. generalize (locations_by_id listed). intros locs Hsub.
  cbv beta iota.
  assert (Hgood : forall id name w',
            (id, name) ∈ locs ->
            let r : (string + pyexn) * World :=
              (inl name, mkWorld (S (calls w)) (sleeps w) w' (reports w)) in
            calls r.2 = S (calls w) /\ sleeps r.2 = sleeps w /\
            (forall ex, @inl _ pyexn listed = inr ex -> r.1 = inr ex) /\
            (forall name0, r.1 = inl name0 ->
               exists listed0 id0,
                 @inl _ pyexn listed = inl listed0 /\ (id0, name0) ∈ listed0)).
  { intros id name w' Hin. simpl. split_and!; try done.
    intros ? [= <-]. exists listed, id. split; [done|]. by apply Hsub. }
  destruct locs as [|first rest] eqn:Hlocs.
  { simpl. split_and!; done. }
  rewrite <- Hlocs in *. clear Hlocs.
  destruct (truthyS location).
  - destruct (dict_get _ _) as [name|] eqn:Hget.
    { apply (Hgood (default "" location)). by apply dict_get_Some_elem. }
    destruct (List.find _ _) as [[id name]|] eqn:Hf.
    { apply (Hgood id). by apply find_elem in Hf as [? _]. }
    simpl. split_and!; done.
  - destruct (first_listed _ _) as [name|] eqn:Hfirst.
    { apply first_listed_elem in Hfirst as (region & _ & Hin).
      by apply (Hgood region). }
    destruct (List.find _ _) as [[id name]|] eqn:Hf.
    { apply (Hgood id). by apply find_elem in Hf as [? _]. }
    simpl. split_and!; done.
Qed.

Lemma prefix_refl s : String.prefix s s = true.
Proof.
  induction s as [|c s IH]; simpl; [done|].
  by destruct (ascii_dec c c).
Qed.

Lemma dict_get_None {V} (k : string) (d : dict V) :
  k ∉ dict_keys d -> dict_get k d = None.
Proof.
  induction d as [|[k' v'] d IH]; simpl; [done|].
  intros Hk. apply not_elem_of_cons in Hk as [Hne Hk].
  destruct (String.eqb_spec k k') as [->|_]; [done|]. by apply IH.
Qed.

Lemma find_None_intro {A} (f : A -> bool) (l : list A) :
  (forall x, x ∈ l -> f x = false) -> List.find f l = None.
Proof.
  induction l as [|y l IH]; intros H; simpl; [done|].
  rewrite (H y) by by left. apply IH. intros x Hx. apply H. by right.
Qed.

Lemma locations_fold_nonempty listed :
  forall acc : dict string,
    acc <> [] -> foldl (fun d x => dict_set x.1 x.2 d) acc listed <> [].
Proof.
  induction listed as [|x listed IH]; intros acc Hacc; simpl; [done|].
  apply IH. destruct acc as [|[k v] acc]; [done|]. simpl.
  by destruct (String.eqb _ _).
Qed.

Lemma locations_by_id_nonempty listed :
  listed <> [] -> locations_by_id listed <> [].
Proof.
  unfold locations_by_id. destruct listed as [|x listed]; [done|].
  intros _. simpl. by apply locations_fold_nonempty.
Qed.

(** X23: A wanted location that is the id of a listed location is chosen,
    whatever other ids it is a prefix of and wherever they stand in the
    listing. *)
Theorem set_location_exact_id regions locations_list search wanted name
    listed w :
  locations_list (calls w) = inl listed ->
  NoDup listed.*1 ->
  wanted <> "" ->
  (wanted, name) ∈ listed ->
  (_set_location regions locations_list search (Some wanted) w).1 = inl name.
Proof.
  intros Hreq Hnd Hne Hin.
  unfold _set_location, execute.
  cbv [mbind M_bind bind mret M_ret ret raise logger_debug modify].
  rewrite Hreq, (locations_by_id_NoDup _ Hnd). cbv beta iota.
  destruct listed as [|first rest] eqn:Hl; [by apply elem_of_nil in Hin|].
  cbv iota. rewrite <- Hl in *. unfold truthyS.
  destruct (String.eqb_spec wanted "") as [|_]; [done|]. cbn [negb default]. unfold id.
  by rewrite (dict_get_elem _ _ _ Hnd Hin).
Qed.

Lemma set_location_exact_id_witness :
  (_set_location [] (fun _ => inl [("us-central1-b", "B"); ("us-central1", "A")])
     (fun _ _ => false) (Some "us-central1") fresh_world).1 = inl "A".
Proof.
  apply (set_location_exact_id _ _ _ _ _
           [("us-central1-b", "B"); ("us-central1", "A")]).
  - reflexivity.
  - apply (bool_decide_unpack _). vm_compute. exact I.
  - discriminate.
  - apply (bool_decide_unpack _). vm_compute. exact I.
Defined.

(** X24: When a location is wanted and no listed id starts with it, the
    function raises the error that names it: the regions are not
    consulted. *)
Theorem set_location_unknown regions locations_list search wanted listed w :
  locations_list (calls w) = inl listed ->
  listed <> [] ->
  wanted <> "" ->
  (forall id name, (id, name) ∈ listed -> startswith id wanted = false) ->
  (_set_location regions locations_list search (Some wanted) w).1
  = inr (WorkflowError ("Location or prefix requested " +:+ wanted
                        +:+ " is not available.")).
Proof.
  intros Hreq Hlisted Hne Hno.
  unfold _set_location, execute.
  cbv [mbind M_bind bind mret M_ret ret raise logger_debug modify].
  rewrite Hreq. cbv beta iota.
  pose proof (locations_by_id_nonempty _ Hlisted) as Hlocs.
  pose proof (elem_of_locations_by_id listed) as Hsub.
  revert Hlocs Hsub. generalize (locations_by_id listed).
  intros locs Hlocs Hsub.
  destruct locs as [|first rest] eqn:Hl; [done|]. cbv iota.
  rewrite <- Hl in *. unfold truthyS.
  destruct (String.eqb_spec wanted "") as [|_]; [done|]. cbn [negb default]. unfold id.
  destruct (dict_get wanted locs) as [name|] eqn:Hget.
  { apply dict_get_Some_elem, Hsub, Hno in Hget.
    unfold startswith in Hget. by rewrite prefix_refl in Hget. }
  rewrite find_None_intro; [done|].
  intros [id name] Hx. simpl. eapply Hno, Hsub, Hx.
Qed.

Lemma set_location_unknown_witness :
  (_set_location ["us-central1"] (fun _ => inl [("us-central1", "A")])
     (fun _ _ => true) (Some "europe") fresh_world).1
  = inr (WorkflowError "Location or prefix requested europe is not available.").
Proof.
  apply (set_location_unknown ["us-central1"] _ _ "europe"
           [("us-central1", "A")] fresh_world).
  - reflexivity.
  - discriminate.
  - discriminate.
  - intros id name Hin. apply list_elem_of_singleton in Hin as [= -> ->].
    reflexivity.
Defined.

Lemma first_listed_app skipped region rest (locations : dict string) name :
  (forall r, r ∈ skipped -> r ∉ dict_keys locations) ->
  dict_get region locations = Some name ->
  first_listed (skipped ++ region :: rest) locations = Some name.
Proof.
  intros Hskip Hget. induction skipped as [|r skipped IH]; simpl.
  - by rewrite Hget.
  - rewrite dict_get_None by (apply Hskip; by left).
    apply IH. intros r' Hr'. apply Hskip. by right.
Qed.

(** X25: When no location is wanted, the first region, in the order of the
    setting, that is the id of a listed location gives the location: the
    order of the listing plays no part. *)
Theorem set_location_first_region skipped region rest locations_list search
    location name listed w :
  locations_list (calls w) = inl listed ->
  NoDup listed.*1 ->
  truthyS location = false ->
  (forall r, r ∈ skipped -> r ∉ listed.*1) ->
  (region, name) ∈ listed ->
  (_set_location (skipped ++ region :: rest) locations_list search location
     w).1 = inl name.
Proof.
  intros Hreq Hnd Hfalsy Hskip Hin.
  unfold _set_location, execute.
  cbv [mbind M_bind bind mret M_ret ret raise logger_debug modify].
  rewrite Hreq, (locations_by_id_NoDup _ Hnd). cbv beta iota.
  destruct listed as [|first others] eqn:Hl; [by apply elem_of_nil in Hin|].
  cbv iota. rewrite <- Hl in *. rewrite Hfalsy.
  by rewrite (first_listed_app _ _ _ _ name Hskip
                (dict_get_elem _ _ _ Hnd Hin)).
Qed.

Lemma set_location_first_region_witness :
  (_set_location (["asia-east1"] ++ "europe-west2" :: ["us-central1"])
     (fun _ => inl [("us-central1", "A"); ("europe-west2", "B")])
     (fun _ _ => true) None fresh_world).1 = inl "B".
Proof.
  apply (set_location_first_region _ _ _ _ _ _ _
           [("us-central1", "A"); ("europe-west2", "B")]).
  - reflexivity.
  - apply (bool_decide_unpack _). vm_compute. exact I.
  - reflexivity.
  - intros r Hr. apply list_elem_of_singleton in Hr as ->.
    apply (bool_decide_unpack _). vm_compute. exact I.
  - apply (bool_decide_unpack _). vm_compute. exact I.
Defined.

(** ** [_generate_environment] *)

Lemma elem_of_dict_set_intro {V} (k k' : string) (v v' : V) (d : dict V) :
  (k', v') = (k, v) \/ (k' <> k /\ (k', v') ∈ d) ->
  (k', v') ∈ dict_set k v d.
Proof.
  induction d as [|[k0 v0] d IH]; cbn [dict_set].
  - intros [[= -> ->]|[_ Hin]]; [by left|by apply elem_of_nil in Hin].
  - destruct (String.eqb_spec k k0) as [<-|Hne].
    + intros [[= -> ->]|[Hk Hin]]; [by left|].
      apply elem_of_cons in Hin as [[= ? ?]|Hin]; [done|by right].
    + intros [[= -> ->]|[Hk Hin]].
      * right. apply IH. by left.
      * apply elem_of_cons in Hin as [[= -> ->]|Hin]; [by left|].
        right. apply IH. right. done.
Qed.

Lemma environment_fold (environ : gmap string string) keys :
  forall acc : dict string,
    NoDup (dict_keys acc) ->
    (forall k v, (k, v) ∈ acc -> environ !! k = Some v) ->
    let env := foldl (fun envvars key =>
                        match environ !! key with
                        | Some value => dict_set key value envvars
                        | None => envvars
                        end) acc keys in
    NoDup (dict_keys env) /\
    forall k v, (k, v) ∈ env <->
                (k, v) ∈ acc \/ (k ∈ keys /\ environ !! k = Some v).
Proof.
  induction keys as [|key keys IH]; intros acc Hnd Hacc; cbn [foldl].
  - split; [done|]. intros k v. split; [by left|].
    intros [?|[Hin _]]; [done|]. by apply elem_of_nil in Hin.
  - destruct (environ !! key) as [value|] eqn:Hkey.
    + destruct (IH (dict_set key value acc)) as [Hnd' Hiff].
      { by apply NoDup_dict_set. }
      { intros k v Hin. apply elem_of_dict_set in Hin as [[= -> ->]|Hin];
          [done|by apply Hacc]. }
      split; [done|]. intros k v. rewrite Hiff. split.
      * intros [Hin|[Hin Hk]]; [|right; split; [by right|done]].
        apply elem_of_dict_set in Hin as [[= -> ->]|Hin]; [|by left].
        right. split; [by left|done].
      * intros [Hin|[Hin Hk]].
        { left. apply elem_of_dict_set_intro.
          destruct (decide (k = key)) as [->|Hne]; [|by right].
          left. apply Hacc in Hin. congruence. }
        apply elem_of_cons in Hin as [->|Hin]; [|by right].
        left. apply elem_of_dict_set_intro. left. congruence.
    + destruct (IH acc Hnd Hacc) as [Hnd' Hiff].
      split; [done|]. intros k v. rewrite Hiff. split.
      * intros [Hin|[Hin Hk]]; [by left|right; split; [by right|done]].
      * intros [Hin|[Hin Hk]]; [by left|].
        apply elem_of_cons in Hin as [->|Hin]; [congruence|by right].
Qed.

(** X29: [_generate_environment] never raises: a requested variable that
    the process environment lacks is left out.  The result holds exactly
    the requested variables that are set, each once and with its value in
    the environment, and the warning about secrets is logged exactly when
    the result is not empty; nothing else changes. *)
Theorem generate_environment_spec d s :
  exists env,
    _generate_environment d s
    = (inl env,
       mkScheduler (executor s)
         (warnings s ++ match env with [] => [] | _ => [secrets_warning] end)
         (infos s) (submitted s)) /\
    NoDup (dict_keys env) /\
    forall key value,
      (key, value) ∈ env <->
      key ∈ envvars d /\ environ d !! key = Some value.
Proof.
  unfold _generate_environment.
  destruct (environment_fold (environ d) (envvars d) []) as [Hnd Hiff].
  { constructor. }
  { intros k v Hin. by apply elem_of_nil in Hin. }
  revert Hnd Hiff. cbv zeta.
  generalize (foldl (fun envvars key =>
                       match environ d !! key with
                       | Some value => dict_set key value envvars
                       | None => envvars
                       end) [] (envvars d)).
  intros env Hnd Hiff. exists env. split; [|split; [done|]].
  - destruct env as [|first rest].
    + cbv [mret M_ret ret]. rewrite app_nil_r. by destruct s.
    + by cbv [mbind M_bind bind mret M_ret ret logger_warning modify].
  - intros key value. rewrite Hiff. split; [|by right].
    intros [Hin|?]; [|done]. by apply elem_of_nil in Hin.
Qed.

(** ** [run_job] *)

Lemma retry_rec_returned {A} (req : request A) n :
  forall timeout w r w',
    retry_request_rec n req timeout w = (inl r, w') ->
    exists k, k <= n /\ req (calls w + k) = inl r /\
              w' = after_calls (S k) (backoff k timeout) w.
Proof.
  induction n as [|n IH]; intros timeout w r w' Hrun; simpl in Hrun;
    unfold execute in Hrun;
    destruct (req (calls w)) as [r0|ex] eqn:Hreq.
  - injection Hrun as <- <-. exists 0. rewrite Nat.add_0_r.
    split; [lia|]. split; [done|]. unfold after_calls; simpl.
    by rewrite app_nil_r, Nat.add_1_r.
  - by destruct (is_Exception ex).
  - injection Hrun as <- <-. exists 0. rewrite Nat.add_0_r.
    split; [lia|]. split; [done|]. unfold after_calls; simpl.
    by rewrite app_nil_r, Nat.add_1_r.
  - destruct (is_Exception ex); [|done].
    cbv [mbind M_bind bind time_sleep modify] in Hrun.
    apply IH in Hrun as (k & Hk & Hreq' & ->). simpl in Hreq'.
    exists (S k). split; [lia|]. split.
    + by rewrite <- Nat.add_succ_comm.
    + unfold after_calls; simpl. rewrite <- app_assoc. simpl.
      f_equal. lia.
Qed.

Lemma generate_environment_state d s :
  exists env lines,
    _generate_environment d s
    = (inl env,
       mkScheduler (executor s) (warnings s ++ lines) (infos s)
         (submitted s)).
Proof.
  unfold _generate_environment. cbv zeta.
  match goal with |- context [foldl ?f ?a ?l] => generalize (foldl f a l) end.
  intros env. exists env. destruct env as [|first rest].
  - exists []. cbv [mret M_ret ret]. rewrite app_nil_r. by destruct s.
  - exists ["This API does not support environment secrets."].
    by cbv [mbind M_bind bind mret M_ret ret logger_warning modify].
Qed.

Lemma generate_pipeline_keeps settings cli d job s :
  submitted (_generate_pipeline settings cli d job s).2 = submitted s /\
  infos (_generate_pipeline settings cli d job s).2 = infos s.
Proof.
  unfold _generate_pipeline, _generate_job_action.
  cbv [mbind M_bind bind mret M_ret ret liftE getattr].
  destruct (_generate_job_resources settings cli (request_of job)
              (executor s)) as [[plan|ex] e1]; [|done].
  cbn [executor warnings infos submitted].
  destruct (pipeline_package e1) as [|package]; [done|].
  cbn [executor warnings infos submitted].
  destruct (generate_environment_state d
              (mkScheduler e1 (warnings s) (infos s) (submitted s)))
    as (env1 & lines1 & ->).
  cbn [executor warnings infos submitted].
  destruct (generate_environment_state d
              (mkScheduler e1 (warnings s ++ lines1) (infos s)
                 (submitted s)))
    as (env2 & lines2 & ->).
  done.
Qed.

(** X26: [run_job] reports a submission exactly when it returns.  On an
    error, whether of the planning, the refusal of Singularity or the
    failure of the request, the list of the submitted jobs is as before.
    When it returns, the run request was answered, for the pipeline of the
    job and its labels, with the name of an operation; one submission was
    added, which holds that name under [external_jobname] and its last
    component as the external job id. *)
Theorem run_job_reports_submission settings cli d api_run job s :
  let r := run_job settings cli d api_run job s in
  ((exists ex, r.1 = inr ex) /\ submitted r.2 = submitted s) \/
  (r.1 = inl tt /\
   exists pipeline name i,
     (_generate_pipeline settings cli d job s).1 = inl pipeline /\
     api_run (location d)
       (mkBody pipeline (_generate_pipeline_labels d job)) i = inl name /\
     submitted r.2 = submitted s ++ [submission_of job name]).
Proof.
  unfold run_job. cbv zeta.
  destruct (generate_pipeline_keeps settings cli d job s) as [Hsub _].
  cbv [mbind M_bind bind].
  destruct (_generate_pipeline settings cli d job s) as [[pl|ex] s1];
    cbn [fst snd] in *.
  2:{ left. split; [by exists ex|done]. }
  destruct (needs_singularity job && use_singularity d).
  { left. split; [by eexists|done]. }
  cbv [liftE liftW].
  destruct (retry _ (world (executor s1))) as [[name|ex] w1] eqn:Hretry.
  2:{ left. split; [by exists ex|done]. }
  right. cbv [logger_info report_job_submission modify]. cbn.
  split; [done|].
  apply retry_rec_returned in Hretry as (k & _ & Hreq & _).
  exists pl, name, (calls (world (executor s1)) + k).
  split; [done|]. split; [done|]. by rewrite Hsub.
Qed.

(** X27: A job that needs Singularity, in a deployment that uses it, is
    refused only after its pipeline has been generated: [run_job] leaves
    the state that [_generate_pipeline] leaves, so that the catalog has
    been fetched but no run request is executed and nothing is reported,
    and it raises the error of the pipeline if there is one, the refusal
    otherwise. *)
Theorem run_job_singularity_refused settings cli d api_run job s :
  needs_singularity job = true ->
  use_singularity d = true ->
  let p := _generate_pipeline settings cli d job s in
  let r := run_job settings cli d api_run job s in
  r.2 = p.2 /\
  r.1 = match p.1 with
        | inl _ => inr singularity_refusal
        | inr ex => inr ex
        end.
Proof.
  intros Hneeds Huses. unfold run_job. cbv zeta.
  cbv [mbind M_bind bind].
  destruct (_generate_pipeline settings cli d job s) as [[pl|ex] s1];
    cbn [fst snd]; [|done].
  by rewrite Hneeds, Huses.
Qed.

Lemma run_job_singularity_refused_witness :
  (run_job plain_settings split_cli example_deployment accepting_api
     example_job submitting_scheduler).2
  = (_generate_pipeline plain_settings split_cli example_deployment
       example_job submitting_scheduler).2 /\
  (run_job plain_settings split_cli example_deployment accepting_api
     example_job submitting_scheduler).1 = inr singularity_refusal.
Proof.
  pose proof (run_job_singularity_refused plain_settings split_cli
                example_deployment accepting_api example_job
                submitting_scheduler eq_refl eq_refl) as H.
  cbv zeta in H. destruct H as [Hstate Hresult].
  split; [exact Hstate|]. rewrite Hresult. vm_compute. reflexivity.
Defined.

(** ** [cancel_jobs] *)

Lemma cancel_job_run api_cancel job w :
  cancellable job ->
  exists w',
    cancel_job api_cancel job w = (inl tt, w') /\
    debug w' = debug w ++ [cancel_line job] /\
    reports w' = reports w /\
    calls w + 1 <= calls w' <= calls w + 4.
Proof.
  intros [name Hname]. unfold cancel_job. rewrite Hname.
  cbv [mbind M_bind bind logger_debug modify swallow].
  eexists. split; [reflexivity|].
  unfold retry, _retry_request.
  match goal with
  | |- context [retry_request_rec ?n ?req ?t ?w0] =>
      destruct (retry_rec_shape req n t w0) as (k & Hk & ->)
  end.
  unfold after_calls; simpl in *. split; [done|]. split; [done|]. lia.
Qed.

(** X28: [cancel_jobs] never raises for jobs that hold the name of their
    operation, whatever the cancel requests answer or raise: it prints one
    debug line for each job, in order, reports nothing, and executes at
    least one and at most four requests for each job. *)
Theorem cancel_jobs_never_raises api_cancel active_jobs w :
  Forall cancellable active_jobs ->
  exists w',
    cancel_jobs api_cancel active_jobs w = (inl tt, w') /\
    debug w' = debug w ++ (cancel_line <$> active_jobs) /\
    reports w' = reports w /\
    calls w + length active_jobs <= calls w'
      <= calls w + 4 * length active_jobs.
Proof.
  intros Hjobs. revert w.
  induction Hjobs as [|job jobs Hjob _ IH]; intros w.
  - exists w. simpl. rewrite app_nil_r. split; [done|].
    split; [done|]. split; [done|]. lia.
  - destruct (cancel_job_run api_cancel job w Hjob)
      as (w1 & Hrun & Hdebug & Hreports & Hcalls).
    destruct (IH w1) as (w' & Hrest & Hdebug' & Hreports' & Hcalls').
    exists w'. unfold cancel_jobs in *. cbn [for_each].
    cbv [mbind M_bind bind]. rewrite Hrun, Hrest.
    split; [done|]. split.
    + rewrite Hdebug', Hdebug, <- app_assoc. done.
    + split; [congruence|]. simpl length. lia.
Qed.

Lemma cancel_jobs_never_raises_witness :
  exists w',
    cancel_jobs failing_cancel
      [submission_of example_job "projects/p/operations/1";
       submission_of example_job "projects/p/operations/2"] fresh_world
    = (inl tt, w') /\
    debug w' = debug fresh_world
               ++ (cancel_line <$>
                     [submission_of example_job "projects/p/operations/1";
                      submission_of example_job "projects/p/operations/2"]) /\
    reports w' = reports fresh_world /\
    calls fresh_world + 2 <= calls w' <= calls fresh_world + 4 * 2.
Proof.
  apply (cancel_jobs_never_raises failing_cancel
           [submission_of example_job "projects/p/operations/1";
            submission_of example_job "projects/p/operations/2"]
           fresh_world).
  repeat constructor; by eexists.
Defined.

(** ** [get_snakefile] *)

Lemma drop_prefix_app p s : drop_prefix p (p +:+ s) = Some s.
Proof.
  induction p as [|c p IH]; simpl; [by destruct s|].
  by rewrite Ascii.eqb_refl.
Qed.

Lemma lstrip_slash_id s : startswith s "/" = false -> lstrip_slash s = s.
Proof.
  destruct s as [|c s]; [done|]. unfold startswith. simpl.
  destruct (ascii_dec "/" c) as [<-|Hne]; [by destruct s|].
  intros _. destruct (Ascii.eqb_spec c "/") as [->|_]; done.
Qed.

Lemma rstrip_slash_id s : endswith_slash s = false -> rstrip_slash s = s.
Proof.
  induction s as [|c s IH]; [done|].
  cbn [endswith_slash rstrip_slash]. destruct s as [|c' s].
  - simpl. by intros ->.
  - intros H. rewrite (IH H). done.
Qed.

(** X30: For a main Snakefile that exists and lies at the relative path
    [rel] under the working directory, where [rel] neither starts nor ends
    with a slash, [get_snakefile] returns [rel]. *)
Theorem get_snakefile_relative (local : gmap string string) workdir rel :
  is_Some (local !! (workdir +:+ "/" +:+ rel)) ->
  startswith rel "/" = false ->
  endswith_slash rel = false ->
  get_snakefile local (workdir +:+ "/" +:+ rel) workdir = Some rel.
Proof.
  intros [content Hexists] Hstart Hend. unfold get_snakefile.
  rewrite Hexists. f_equal.
  unfold removeprefix. rewrite drop_prefix_app. cbn [default from_option id].
  unfold strip_slash. change ("/" +:+ rel) with (String "/" rel).
  cbn [lstrip_slash]. change (Ascii.eqb "/" "/") with true. cbv iota.
  by rewrite lstrip_slash_id, rstrip_slash_id.
Qed.

Lemma get_snakefile_relative_witness :
  get_snakefile (files started_executor)
    ("/home/user/workflow" +:+ "/" +:+ "Snakefile") "/home/user/workflow"
  = Some "Snakefile".
Proof.
  apply (get_snakefile_relative (files started_executor)
           "/home/user/workflow" "Snakefile").
  - apply (bool_decide_unpack _). vm_compute. exact I.
  - reflexivity.
  - reflexivity.
Defined.
